(** * Radio Beta "now playing" service: a shallow embedding of [main.py]

    The development follows the layout of the source file:

    - Python values the program manipulates: [str] as a list of Unicode code
      points, [datetime.time] and [datetime.datetime] as records, exceptions
      as an error monad [res];
    - the pydantic models [Song], [Silence], [ListenerStats];
    - the two module globals [is_radio_playing] and [last_listeners] as an
      explicit state record threaded through the two operations that touch
      them, [now_playing] and [generate_listeners_stats];
    - everything the program reads from outside (the rendered page, the static
      document, the clocks, the random draw) as an explicit environment
      argument of the operation that reads it.

    Definitions come first, theorems after. *)

From Stdlib Require Import Ascii String ZArith NArith List Bool Lia.
From Stdlib Require Import Floats Uint63.
Import ListNotations.
Local Open Scope Z_scope.

(* ================================================================== *)
(** * Python runtime: exceptions *)
(* ================================================================== *)

(** The exception classes the program can meet: the ones of
    [selenium.common] (every Selenium error derives from
    [WebDriverException]; the constructor of that name stands for the base
    class and for the subclasses the program does not name), the base class
    of [requests], and the built-in [ValueError] that [int], tuple
    unpacking, [datetime.time] and [random.randint] raise. *)
Inductive exn : Type :=
| TimeoutException
| NoSuchElementException
| WebDriverException
| RequestException
| ValueError.

Definition exn_eqb (a b : exn) : bool :=
  match a, b with
  | TimeoutException, TimeoutException => true
  | NoSuchElementException, NoSuchElementException => true
  | WebDriverException, WebDriverException => true
  | RequestException, RequestException => true
  | ValueError, ValueError => true
  | _, _ => false
  end.

(** [isinstance(e, cls)] on this hierarchy. *)
Definition isinstance (e cls : exn) : bool :=
  match cls, e with
  | WebDriverException, (TimeoutException | NoSuchElementException) => true
  | _, _ => exn_eqb e cls
  end.

(** [except (cls1, cls2, ...)] *)
Definition except_classes (clss : list exn) (e : exn) : bool :=
  existsb (isinstance e) clss.

(** [except Exception]: every class above derives from [Exception]. *)
Definition except_Exception (e : exn) : bool := true.

(** A computation either returns or raises. *)
Inductive res (A : Type) : Type :=
| Ok (a : A)
| Raise (e : exn).
Arguments Ok {A} a.
Arguments Raise {A} e.

Definition bind {A B} (m : res A) (k : A -> res B) : res B :=
  match m with
  | Ok a => k a
  | Raise e => Raise e
  end.

Declare Scope res_scope.
Delimit Scope res_scope with res.
Notation "x <- m ;; k" := (bind m (fun x => k))
  (at level 100, m at next level, right associativity) : res_scope.
Notation "' p <- m ;; k" := (bind m (fun p => k))
  (at level 100, p pattern, m at next level, right associativity) : res_scope.

(** [try: body except <catches>: handler]. An exception the clause does not
    name propagates. *)
Definition try_except {A} (body : res A) (catches : exn -> bool)
    (handler : exn -> res A) : res A :=
  match body with
  | Ok a => Ok a
  | Raise e => if catches e then handler e else Raise e
  end.

(* ================================================================== *)
(** * Python runtime: numbers and the random module *)
(* ================================================================== *)

(** [int * float] converts the integer to binary64 first (exactly, for
    the magnitudes below 2^53 that occur here). *)
Definition float_of_int (z : Z) : float :=
  if z <? 0 then PrimFloat.opp (PrimFloat.of_uint63 (Uint63.of_Z (- z)))
  else PrimFloat.of_uint63 (Uint63.of_Z z).

(** [int(f)] truncates toward zero. (On an infinity or a NaN Python raises;
    the only call site multiplies a width of the hourly table by a constant,
    see [band_facts].) *)
Definition int_of_float (f : float) : Z :=
  match Prim2SF f with
  | S754_finite s m e =>
      let a := if 0 <=? e then Z.shiftl (Z.pos m) e else Z.shiftr (Z.pos m) (- e) in
      if s then - a else a
  | _ => 0
  end.

(** The literal [0.15]: the binary64 value nearest to 15/100. *)
Definition float_0_15 : float := 0x1.3333333333333p-3%float.

(** [random.Random._randbelow(n)] for [n > 0]: a value of [range(n)]. The
    generator's draw is the environment's: [r] is the raw value drawn, and
    each residue of [range(n)] stands for one outcome. *)
Definition _randbelow (n r : Z) : Z := r mod n.

(** [random.randint(a, b)] is [randrange(a, b + 1)]: [a + _randbelow(b + 1 - a)]
    when the range is not empty, [ValueError] otherwise. *)
Definition randint (a b : Z) (r : Z) : res Z :=
  let width := b + 1 - a in
  if 0 <? width then Ok (a + _randbelow width r) else Raise ValueError.

(* ================================================================== *)
(** * Python runtime: str *)
(* ================================================================== *)

(** A [str] is a sequence of Unicode code points. *)
Definition char : Type := N.
Definition str : Type := list char.

(** An ASCII literal of the source as a [str]. *)
Fixpoint lit (s : string) : str :=
  match s with
  | EmptyString => []
  | String c s' => N_of_ascii c :: lit s'
  end.

(** [a == b] on [str] *)
Fixpoint str_eqb (a b : str) : bool :=
  match a, b with
  | [], [] => true
  | x :: a', y :: b' => (x =? y)%N && str_eqb a' b'
  | _, _ => false
  end.

(** [not s] on [str] *)
Definition is_empty (s : str) : bool :=
  match s with [] => true | _ => false end.

(** [str.isspace] on one code point: the code points whose bidirectional
    type is WS, B or S, or whose category is Zs. *)
Definition isspace (c : char) : bool :=
  (((0x09 <=? c) && (c <=? 0x0D)) || ((0x1C <=? c) && (c <=? 0x20))
   || (c =? 0x85) || (c =? 0xA0) || (c =? 0x1680)
   || ((0x2000 <=? c) && (c <=? 0x200A))
   || (c =? 0x2028) || (c =? 0x2029) || (c =? 0x202F) || (c =? 0x205F)
   || (c =? 0x3000))%N.

Fixpoint lstrip (s : str) : str :=
  match s with
  | [] => []
  | c :: s' => if isspace c then lstrip s' else s
  end.

Definition rstrip (s : str) : str := rev (lstrip (rev s)).

(** [s.strip()] *)
Definition strip (s : str) : str := rstrip (lstrip s).

(** [s.split()]: the maximal runs of non-whitespace, in order. [cur] is the
    run being read, reversed. *)
Fixpoint split_ws_from (cur : str) (s : str) : list str :=
  match s with
  | [] => match cur with [] => [] | _ => [rev cur] end
  | c :: s' =>
      if isspace c then
        match cur with
        | [] => split_ws_from [] s'
        | _ => rev cur :: split_ws_from [] s'
        end
      else split_ws_from (c :: cur) s'
  end.

Definition split_ws (s : str) : list str := split_ws_from [] s.

(** [s.split(sep)] for a one-character separator: every separator cuts,
    empty pieces are kept. *)
Fixpoint split_on_from (sep : char) (cur : str) (s : str) : list str :=
  match s with
  | [] => [rev cur]
  | c :: s' =>
      if (c =? sep)%N then rev cur :: split_on_from sep [] s'
      else split_on_from sep (c :: cur) s'
  end.

Definition split_on (sep : char) (s : str) : list str := split_on_from sep [] s.

(** [sep.join(parts)] *)
Fixpoint join (sep : str) (parts : list str) : str :=
  match parts with
  | [] => []
  | [p] => p
  | p :: rest => p ++ sep ++ join sep rest
  end.

(* ================================================================== *)
(** * Python runtime: datetime *)
(* ================================================================== *)

Inductive tzinfo : Type :=
| utc                 (* timezone.utc *)
| Europe_Bratislava.  (* ZoneInfo("Europe/Bratislava") *)

(** [datetime.time] *)
Record pytime : Type := Time {
  hour : Z;
  minute : Z;
  second : Z;
  microsecond : Z;
  time_tzinfo : option tzinfo;
  fold : Z
}.

(** [datetime.datetime]: a date (its proleptic ordinal) and a time of day. *)
Record datetime : Type := Datetime {
  toordinal : Z;
  dt_hour : Z;
  dt_minute : Z;
  dt_second : Z;
  dt_microsecond : Z;
  dt_tzinfo : option tzinfo;
  dt_fold : Z
}.

(** [dt.time()]: the time of day, without the zone. *)
Definition dt_time (d : datetime) : pytime :=
  Time (dt_hour d) (dt_minute d) (dt_second d) (dt_microsecond d) None (dt_fold d).

(** [t.replace(second=0, microsecond=0, tzinfo=tz)] *)
Definition replace_second_microsecond_tzinfo (t : pytime) (s us : Z) (tz : tzinfo) : pytime :=
  Time (hour t) (minute t) s us (Some tz) (fold t).

(** [time(h, m, tzinfo=tz)]: the constructor checks the ranges. *)
Definition time_of (h m : Z) (tz : tzinfo) : res pytime :=
  if (0 <=? h) && (h <=? 23) then
    if (0 <=? m) && (m <=? 59) then Ok (Time h m 0 0 (Some tz) 0)
    else Raise ValueError
  else Raise ValueError.

(* ================================================================== *)
(** * Python runtime: the Unicode character database *)
(* ================================================================== *)

(** The tables restricted to ASCII, where [lower] and [casefold] are the
    same map and the only decimal digits are the ASCII ones. The concrete
    inputs below are ASCII and are evaluated with these. *)
Definition ascii_lower (s : str) : str :=
  map (fun c => if ((0x41 <=? c) && (c <=? 0x5A))%N then (c + 0x20)%N else c) s.

Definition no_unicode_decimal (c : char) : option N := None.

(** [ascii_lower], one character at a time. *)
Definition ascii_fold_char (c : char) : str :=
  [if ((0x41 <=? c) && (c <=? 0x5A))%N then (c + 0x20)%N else c].

Section Program.

(** The program calls three operations that consult the interpreter's
    Unicode tables. The tables are the interpreter's, not the program's, and
    the development holds for any of them. *)

(** [s.lower()] *)
Variable lower : str -> str.

(** [s.casefold()] *)
Variable casefold : str -> str.

(** The decimal digit value of a code point beyond ASCII, if it is a
    decimal digit (category Nd). *)
Variable unicode_decimal : char -> option N.

(** ** [int(s)] on a [str] *)

(** The ASCII whitespace [int] skips around the number. *)
Definition ascii_isspace (c : char) : bool :=
  (((0x09 <=? c) && (c <=? 0x0D)) || (c =? 0x20))%N.

Definition ascii_digit (c : char) : option Z :=
  if ((0x30 <=? c) && (c <=? 0x39))%N then Some (Z.of_N c - 0x30) else None.

(** First pass of [int]: ASCII stays, any other whitespace becomes a space,
    any other decimal digit becomes its ASCII digit, anything else is an
    error. *)
Definition to_ascii_char (c : char) : option char :=
  if (c <? 127)%N then Some c
  else if isspace c then Some 0x20%N
  else match unicode_decimal c with
       | Some d => Some (0x30 + d)%N
       | None => None
       end.

Fixpoint to_ascii (s : str) : option str :=
  match s with
  | [] => Some []
  | c :: s' =>
      match to_ascii_char c, to_ascii s' with
      | Some c', Some r => Some (c' :: r)
      | _, _ => None
      end
  end.

Fixpoint skip_ascii_space (s : str) : str :=
  match s with
  | [] => []
  | c :: s' => if ascii_isspace c then skip_ascii_space s' else s
  end.

(** The digits of a base-10 literal, single underscores allowed between
    them: the value read, how many digits it has and what follows; [None]
    on a doubled or a trailing underscore. [prev_underscore] tells whether
    the character before was an underscore. *)
Fixpoint scan_digits (prev_underscore : bool) (acc digits : Z) (s : str)
    : option (Z * Z * str) :=
  match s with
  | [] => if prev_underscore then None else Some (acc, digits, [])
  | c :: s' =>
      match ascii_digit c with
      | Some d => scan_digits false (10 * acc + d) (digits + 1) s'
      | None =>
          if (c =? 0x5F)%N then
            if prev_underscore then None else scan_digits true acc digits s'
          else
            if prev_underscore then None else Some (acc, digits, s)
      end
  end.

(** [sys.get_int_max_str_digits()], at its default. *)
Definition int_max_str_digits : Z := 4300.

Definition int_of_str (s : str) : res Z :=
  match to_ascii s with
  | None => Raise ValueError
  | Some buf =>
      let buf := skip_ascii_space buf in
      let '(negative, buf) :=
        match buf with
        | c :: buf' =>
            if (c =? 0x2B)%N then (false, buf')
            else if (c =? 0x2D)%N then (true, buf')
            else (false, buf)
        | [] => (false, buf)
        end in
      match buf with
      | c :: _ => if (c =? 0x5F)%N then Raise ValueError else
          match scan_digits false 0 0 buf with
          | None => Raise ValueError
          | Some (v, digits, rest) =>
              if digits =? 0 then Raise ValueError
              else if int_max_str_digits <? digits then Raise ValueError
              else
                match skip_ascii_space rest with
                | [] => Ok (if negative then - v else v)
                | _ => Raise ValueError
                end
          end
      | [] => Raise ValueError
      end
  end.

(** [a, b = l]: exactly two values. *)
Definition unpack2 {A} (l : list A) : res (A * A) :=
  match l with
  | [a; b] => Ok (a, b)
  | _ => Raise ValueError
  end.

(* ================================================================== *)
(** * Configuration and shared state *)
(* ================================================================== *)

Definition LOCAL_TZ : tzinfo := Europe_Bratislava.
Definition RADIO_NAME : str := lit "Beta".

(** The two module globals. *)
Record globals : Type := Globals {
  is_radio_playing : bool;
  last_listeners : Z
}.

(** The values the module assigns at import time. *)
Definition initial_globals : globals :=
  {| is_radio_playing := true; last_listeners := 0 |}.

(* ================================================================== *)
(** * Pydantic models *)
(* ================================================================== *)

Record Song : Type := mkSong {
  song_radio : str;
  interpreters : str;
  title : str;
  start_time : pytime;
  song_timestamp : datetime
}.

Record Silence : Type := mkSilence {
  silence_radio : str;
  is_playing : bool;
  message : str;
  silence_timestamp : datetime
}.

Record ListenerStats : Type := mkListenerStats {
  listeners : Z;
  timestamp : datetime
}.

(** [ResponseModel = Union[Song, Silence]] *)
Inductive ResponseModel : Type :=
| IsSong (s : Song)
| IsSilence (s : Silence).

(* ================================================================== *)
(** * Scraping logic *)
(* ================================================================== *)

(** ** The rendered page, through Selenium *)

(** The on-air block as the program reads it: for each of the two spans it
    looks up inside the block, the [.text] of the first one of that class,
    if the block has one. *)
Record WebElement : Type := mkWebElement {
  span_interpret : option str;  (* .//span[contains(@class,'interpret')] *)
  span_titul : option str       (* .//span[contains(@class,'titul')] *)
}.

(** The page a driver shows after [driver.get(URL)]: the first
    [div] of class [radio_profil_play], if it is present before the wait
    of [REQUEST_TIMEOUT_SEC] runs out. *)
Record Chrome : Type := mkChrome {
  radio_profil_play : option WebElement
}.

(** [WebDriverWait(...).until(EC.presence_of_element_located(...))] *)
Definition wait_until_presence {A} (located : option A) : res A :=
  match located with
  | Some el => Ok el
  | None => Raise TimeoutException
  end.

(** [find_element(By.XPATH, ...)] *)
Definition find_element {A} (located : option A) : res A :=
  match located with
  | Some el => Ok el
  | None => Raise NoSuchElementException
  end.

(** The dict [{"interpreters": ..., "title": ...}]. *)
Record OnAir : Type := mkOnAir {
  onair_interpreters : str;
  onair_title : str
}.

(** ["nehrá žiadna pesnička"] and
    ["je dočasne nedostupná"] *)
Definition silence_patterns : list str :=
  [ lit "nehr" ++ [0xE1%N] ++ lit " " ++ [0x17E%N] ++ lit "iadna pesni"
      ++ [0x10D%N] ++ lit "ka";
    lit "je do" ++ [0x10D%N] ++ lit "asne nedostupn" ++ [0xE1%N] ].

(** [s in patterns] *)
Definition str_in (s : str) (patterns : list str) : bool :=
  existsb (str_eqb s) patterns.

Definition scrape_onair_dynamic (driver : Chrome) : res (option OnAir) :=
  (_ <- wait_until_presence (radio_profil_play driver) ;;
   onair_block <- find_element (radio_profil_play driver) ;;
   (* [None] stands for the handler's [return None] *)
   texts <- try_except
     (interpret_el <- find_element (span_interpret onair_block) ;;
      titul_el <- find_element (span_titul onair_block) ;;
      let interpret_txt := strip interpret_el in
      let titul_txt := strip titul_el in
      Ok (Some (interpret_txt, titul_txt)))
     (except_classes [NoSuchElementException; TimeoutException])
     (fun _ => Ok None) ;;
   match texts with
   | None => Ok None
   | Some (interpret_txt, titul_txt) =>
       let t_norm := join (lit " ") (split_ws (lower titul_txt)) in
       if str_in t_norm silence_patterns
          || is_empty interpret_txt || is_empty titul_txt
       then Ok None
       else Ok (Some (mkOnAir interpret_txt titul_txt))
   end)%res.

(** ** The static document, through BeautifulSoup *)

(** A [<span>] as the program reads it: the strings inside it, in document
    order. *)
Definition Tag : Type := list str.

(** [tag.get_text()] *)
Definition get_text (tag : Tag) : str := concat tag.

(** [tag.get_text(strip=True)]: every string stripped, the empty ones
    dropped. *)
Definition get_text_strip (tag : Tag) : str :=
  concat (filter (fun s => negb (is_empty s)) (map strip tag)).

(** A playlist row, an [<a class="datum_cas_skladba">]: for each of the
    three classes the program asks for, the first [<span>] of that class
    inside the row, if there is one. *)
Record Row : Type := mkRow {
  span_cas : option Tag;
  row_interpret : option Tag;
  row_titul : option Tag
}.

(** The parsed document: the rows inside [<div id="playlist_table">], in
    document order, if the document has that [div]. *)
Record BeautifulSoup : Type := mkSoup {
  playlist_table : option (list Row)
}.

Definition fetch_html_static (response : res BeautifulSoup)
    : res (option BeautifulSoup) :=
  try_except
    (soup <- response ;; Ok (Some soup))%res
    (except_classes [RequestException])
    (fun _ => Ok None).

(** [norm = lambda s: " ".join((s or "").strip().casefold().split())]
    ([s or ""] is [s] on a [str]). *)
Definition norm (s : str) : str :=
  join (lit " ") (split_ws (casefold (strip s))).

(** The body of the [try] on a matched row. *)
Definition parse_time_span (time_span : Tag) : res (option pytime) :=
  ('(hh, mm) <- unpack2 (firstn 2 (split_on 0x3A%N (get_text_strip time_span))) ;;
   h <- int_of_str hh ;;
   m <- int_of_str mm ;;
   t <- time_of h m LOCAL_TZ ;;
   Ok (Some t))%res.

(** The [for] loop over [song_rows[:5]]; running off the end is the
    warning and [return None]. *)
Fixpoint scan_rows (n_artist n_title : str) (rows : list Row) : res (option pytime) :=
  match rows with
  | [] => Ok None
  | row :: rest =>
      match span_cas row, row_interpret row, row_titul row with
      | Some time_span, Some artist_span, Some title_span =>
          if str_eqb (norm (get_text artist_span)) n_artist
             && str_eqb (norm (get_text title_span)) n_title
          then
            try_except (parse_time_span time_span)
              except_Exception
              (fun _ => Ok None)
          else scan_rows n_artist n_title rest
      | _, _, _ => scan_rows n_artist n_title rest
      end
  end.

Definition try_get_start_time_from_playlist (soup : BeautifulSoup)
    (artist title : str) : res (option pytime) :=
  match playlist_table soup with
  | None => Ok None
  | Some song_rows =>
      match song_rows with
      | [] => Ok None
      | _ =>
          let n_artist := norm artist in
          let n_title := norm title in
          scan_rows n_artist n_title (firstn 5 song_rows)
      end
  end.

(* ================================================================== *)
(** * API endpoint *)
(* ================================================================== *)

(** What one request reads from outside. [req_driver] is the outcome of
    [_build_driver()] followed by [driver.get(URL)]; [req_static] the
    outcome of [requests.get], [raise_for_status] and the parse. What the
    [finally] clause meets is in [cleanup_env] below. *)
Record request_env : Type := RequestEnv {
  req_now_utc : datetime;      (* datetime.now(timezone.utc), on entry *)
  req_driver : res Chrome;
  req_static : res BeautifulSoup;
  req_now_local : datetime     (* datetime.now(LOCAL_TZ), read by the fallback *)
}.

Definition set_is_radio_playing (g : globals) (b : bool) : globals :=
  {| is_radio_playing := b; last_listeners := last_listeners g |}.

(** The request when [driver.quit()] returns (or is not reached): the
    [finally] clause then changes neither the answer nor the globals.
    [now_playing_with_quit] below is the request with the clause. *)
Definition now_playing (env : request_env) (g : globals)
    : res ResponseModel * globals :=
  let ts_utc := req_now_utc env in
  (* the [try] block: [inl] is a [return] from inside it, with the globals
     it wrote, [inr] falls through to the code after it *)
  let tried : res (ResponseModel * globals + OnAir) :=
    try_except
      (driver <- req_driver env ;;
       onair <- scrape_onair_dynamic driver ;;
       match onair with
       | None =>
           Ok (inl (IsSilence (mkSilence RADIO_NAME false
                                 (lit "Nothing is playing right now.") ts_utc),
                    set_is_radio_playing g false))
       | Some onair => Ok (inr onair)
       end)%res
      (except_classes [TimeoutException; WebDriverException])
      (fun _ =>
         Ok (inl (IsSilence (mkSilence RADIO_NAME false
                               (lit "Upstream page unavailable.") ts_utc),
                  set_is_radio_playing g false))) in
  match tried with
  | Raise e => (Raise e, g)
  | Ok (inl (response, g')) => (Ok response, g')
  | Ok (inr onair) =>
      let found : res (option pytime) :=
        (soup <- fetch_html_static (req_static env) ;;
         match soup with
         | Some soup =>
             try_get_start_time_from_playlist soup
               (onair_interpreters onair) (onair_title onair)
         | None => Ok None
         end)%res in
      match found with
      | Raise e => (Raise e, g)
      | Ok start_t =>
          let start_t :=
            match start_t with
            | Some t => t
            | None =>
                replace_second_microsecond_tzinfo
                  (dt_time (req_now_local env)) 0 0 LOCAL_TZ
            end in
          (Ok (IsSong (mkSong RADIO_NAME (onair_interpreters onair)
                         (onair_title onair) start_t ts_utc)),
           set_is_radio_playing g true)
      end
  end.

(** What the [finally] clause of a request meets. When the driver step
    raised, [driver_was_built] tells whether [_build_driver()] had returned,
    so that [driver] is set and the exception is the one of
    [driver.get(URL)]; when the driver step returned, [driver] is set.
    [req_quit] is the outcome of [driver.quit()]. *)
Record cleanup_env : Type := CleanupEnv {
  driver_was_built : bool;
  req_quit : res unit
}.

(** [finally: if driver: driver.quit()] *)
Definition finally_quit (cleanup : cleanup_env) (env : request_env) : res unit :=
  let driver_is_set :=
    match req_driver env with
    | Ok _ => true
    | Raise _ => driver_was_built cleanup
    end in
  if driver_is_set then req_quit cleanup else Ok tt.

(** The whole endpoint. An exception of the [finally] clause replaces the
    return or the exception that was pending; the globals stay as the [try]
    statement wrote them. *)
Definition now_playing_with_quit (cleanup : cleanup_env) (env : request_env)
    (g : globals) : res ResponseModel * globals :=
  let ts_utc := req_now_utc env in
  let tried : res (ResponseModel * globals + OnAir) :=
    try_except
      (driver <- req_driver env ;;
       onair <- scrape_onair_dynamic driver ;;
       match onair with
       | None =>
           Ok (inl (IsSilence (mkSilence RADIO_NAME false
                                 (lit "Nothing is playing right now.") ts_utc),
                    set_is_radio_playing g false))
       | Some onair => Ok (inr onair)
       end)%res
      (except_classes [TimeoutException; WebDriverException])
      (fun _ =>
         Ok (inl (IsSilence (mkSilence RADIO_NAME false
                               (lit "Upstream page unavailable.") ts_utc),
                  set_is_radio_playing g false))) in
  match finally_quit cleanup env with
  | Raise e =>
      (Raise e, match tried with Ok (inl (_, g')) => g' | _ => g end)
  | Ok _ =>
      match tried with
      | Raise e => (Raise e, g)
      | Ok (inl (response, g')) => (Ok response, g')
      | Ok (inr onair) =>
          let found : res (option pytime) :=
            (soup <- fetch_html_static (req_static env) ;;
             match soup with
             | Some soup =>
                 try_get_start_time_from_playlist soup
                   (onair_interpreters onair) (onair_title onair)
             | None => Ok None
             end)%res in
          match found with
          | Raise e => (Raise e, g)
          | Ok start_t =>
              let start_t :=
                match start_t with
                | Some t => t
                | None =>
                    replace_second_microsecond_tzinfo
                      (dt_time (req_now_local env)) 0 0 LOCAL_TZ
                end in
              (Ok (IsSong (mkSong RADIO_NAME (onair_interpreters onair)
                             (onair_title onair) start_t ts_utc)),
               set_is_radio_playing g true)
          end
      end
  end.

(* ================================================================== *)
(** * Listener simulator *)
(* ================================================================== *)

Definition get_hourly_base_range (hour : Z) : Z * Z :=
  if (0 <=? hour) && (hour <=? 5) then (10, 40)
  else if (6 <=? hour) && (hour <=? 8) then (100, 150)
  else if (9 <=? hour) && (hour <=? 11) then (80, 130)
  else if (12 <=? hour) && (hour <=? 14) then (70, 110)
  else if (15 <=? hour) && (hour <=? 18) then (120, 180)
  else if (19 <=? hour) && (hour <=? 22) then (50, 90)
  else if hour =? 23 then (30, 60)
  else (50, 80).

(** What one tick reads from outside: the two clocks and the one draw of
    the random generator it makes. *)
Record tick_env : Type := TickEnv {
  tick_now_utc : datetime;    (* datetime.now(timezone.utc) *)
  tick_now_local : datetime;  (* datetime.now(LOCAL_TZ) *)
  tick_random : Z
}.

(** [int((max_base - min_base) * 0.15) + 2], in binary64 as the source
    computes it. *)
Definition max_change_of (min_base max_base : Z) : Z :=
  int_of_float (PrimFloat.mul (float_of_int (max_base - min_base)) float_0_15) + 2.

Definition generate_listeners_stats (env : tick_env) (g : globals)
    : res ListenerStats * globals :=
  let ts_utc := tick_now_utc env in
  if negb (is_radio_playing g) then
    (Ok (mkListenerStats 0 ts_utc),
     {| is_radio_playing := is_radio_playing g; last_listeners := 0 |})
  else
    let now_local := tick_now_local env in
    let current_hour := dt_hour now_local in
    let '(min_base, max_base) := get_hourly_base_range current_hour in
    let drawn :=
      if last_listeners g =? 0 then
        randint min_base max_base (tick_random env)
      else
        let max_change := max_change_of min_base max_base in
        (change <- randint (- max_change) max_change (tick_random env) ;;
         Ok (last_listeners g + change))%res in
    match drawn with
    | Raise e => (Raise e, g)
    | Ok new_listeners =>
        let new_listeners := Z.max min_base (Z.min new_listeners max_base) in
        (Ok (mkListenerStats new_listeners ts_utc),
         {| is_radio_playing := is_radio_playing g; last_listeners := new_listeners |})
    end.
(* ================================================================== *)
(** * The process as a sequence of calls *)
(* ================================================================== *)

(** The endpoints call the two operations above and nothing else touches
    the globals: a run of the process is a sequence of requests and ticks,
    each with what it reads from outside. *)
Inductive call : Type :=
| Request (env : request_env)   (* GET /now-playing *)
| Tick (env : tick_env).        (* one round of the /listeners loop *)

Inductive outcome : Type :=
| Responded (r : res ResponseModel)
| Ticked (r : res ListenerStats).

Definition step (c : call) (g : globals) : outcome * globals :=
  match c with
  | Request env => let '(r, g') := now_playing env g in (Responded r, g')
  | Tick env => let '(r, g') := generate_listeners_stats env g in (Ticked r, g')
  end.

(** The globals after a sequence of calls. *)
Fixpoint run (calls : list call) (g : globals) : globals :=
  match calls with
  | [] => g
  | c :: rest => run rest (snd (step c g))
  end.

(* ================================================================== *)
(** * WebSocket listeners endpoint *)
(* ================================================================== *)

(** How an [await] on the socket ends: it returns, it raises
    [WebSocketDisconnect], or it raises another exception. *)
Inductive socket_outcome : Type :=
| Done
| WebSocketDisconnect
| SocketError.

(** One round of the [while True] loop as the handler meets it: what its
    tick reads, how [send_json] ends, and the calls the other handlers of
    the process serve while this one is suspended in [send_json] and in
    [asyncio.sleep(15)]. *)
Record round : Type := mkRound {
  round_tick : tick_env;
  round_send : socket_outcome;
  round_meanwhile : list call
}.

(** Where the handler stands after the rounds it was given. *)
Inductive connection : Type :=
| AcceptRaised         (* [accept] raised, outside the [try] *)
| Streaming            (* still in the loop, asleep until the next round *)
| ClosedOnDisconnect   (* left through [except WebSocketDisconnect] *)
| ClosedOnError.       (* left through [except Exception] *)

(** The [try] block: the messages sent, how the loop stands, and the
    globals as the handler last left them. (A cancellation of the task is
    not an [Exception] and is not modelled.) *)
Fixpoint websocket_endpoint_loop (rounds : list round) (g : globals)
    : list ListenerStats * connection * globals :=
  match rounds with
  | [] => ([], Streaming, g)
  | r :: rest =>
      let '(stats, g1) := generate_listeners_stats (round_tick r) g in
      match stats with
      | Raise _ => ([], ClosedOnError, g1)
      | Ok stats =>
          match round_send r with
          | Done =>
              let '(sent, c, g') :=
                websocket_endpoint_loop rest (run (round_meanwhile r) g1) in
              (stats :: sent, c, g')
          | WebSocketDisconnect => ([], ClosedOnDisconnect, g1)
          | SocketError => ([], ClosedOnError, g1)
          end
      end
  end.

Definition websocket_endpoint (accept : socket_outcome) (rounds : list round)
    (g : globals) : list ListenerStats * connection * globals :=
  match accept with
  | Done => websocket_endpoint_loop rounds g
  | _ => ([], AcceptRaised, g)
  end.

(* ================================================================== *)
(** * Vocabulary of the statements *)
(* ================================================================== *)

(** The listener bands the table can return. *)
Definition bands : list (Z * Z) :=
  [(10, 40); (100, 150); (80, 130); (70, 110); (120, 180); (50, 90);
   (30, 60); (50, 80)].

(** [floor((max - min) * 0.15) + 2] in exact arithmetic. *)
Definition max_change_exact (min_base max_base : Z) : Z :=
  (max_base - min_base) * 15 / 100 + 2.

(** No call of the sequence answers with a [Song]. *)
Fixpoint no_song (calls : list call) (g : globals) : Prop :=
  match calls with
  | [] => True
  | c :: rest =>
      match fst (step c g) with
      | Responded (Ok (IsSong _)) => False
      | _ => True
      end /\ no_song rest (snd (step c g))
  end.

Definition nothing_is_playing (ts_utc : datetime) : ResponseModel :=
  IsSilence (mkSilence RADIO_NAME false (lit "Nothing is playing right now.") ts_utc).

Definition upstream_unavailable (ts_utc : datetime) : ResponseModel :=
  IsSilence (mkSilence RADIO_NAME false (lit "Upstream page unavailable.") ts_utc).

(** The four ways a request ends. *)
Inductive now_playing_outcome (env : request_env) (g : globals)
    : res ResponseModel * globals -> Prop :=
| ends_nothing_playing driver :
    req_driver env = Ok driver ->
    scrape_onair_dynamic driver = Ok None ->
    now_playing_outcome env g
      (Ok (nothing_is_playing (req_now_utc env)), set_is_radio_playing g false)
| ends_upstream_unavailable e :
    (req_driver env = Raise e
     \/ exists driver, req_driver env = Ok driver
                       /\ scrape_onair_dynamic driver = Raise e) ->
    except_classes [TimeoutException; WebDriverException] e = true ->
    now_playing_outcome env g
      (Ok (upstream_unavailable (req_now_utc env)), set_is_radio_playing g false)
| ends_song driver onair start_t :
    req_driver env = Ok driver ->
    scrape_onair_dynamic driver = Ok (Some onair) ->
    now_playing_outcome env g
      (Ok (IsSong (mkSong RADIO_NAME (onair_interpreters onair)
                     (onair_title onair) start_t (req_now_utc env))),
       set_is_radio_playing g true)
| ends_raising e :
    now_playing_outcome env g (Raise e, g).

(** The matching rule: the row has its three spans, and its artist and
    its title are equal to the ones looked up once each side is trimmed,
    case-folded and has its whitespace collapsed. *)
Definition row_matches (artist title : str) (row : Row) : bool :=
  match span_cas row, row_interpret row, row_titul row with
  | Some _, Some artist_span, Some title_span =>
      str_eqb (norm (get_text artist_span)) (norm artist)
      && str_eqb (norm (get_text title_span)) (norm title)
  | _, _, _ => false
  end.

(** What the lookup answers on the row it matched. *)
Definition on_match (row : Row) : res (option pytime) :=
  match span_cas row with
  | Some time_span =>
      try_except (parse_time_span time_span) except_Exception (fun _ => Ok None)
  | None => Ok None
  end.

(** A row without one of the three spans the loop asks for. *)
Definition lacks_span (row : Row) : Prop :=
  span_cas row = None \/ row_interpret row = None \/ row_titul row = None.

(** [n] in 0..99 written with two ASCII digits. *)
Definition two_digits (n : Z) : str :=
  [(0x30 + Z.to_N (n / 10))%N; (0x30 + Z.to_N (n mod 10))%N].

Definition colon : char := 0x3A%N.

Definition is_digit (c : char) : bool := ((0x30 <=? c) && (c <=? 0x39))%N.

(** The ways the static side gives no start time for a candidate: the
    fetch fails, the document has no playlist table, none of the first 5
    rows matches, or the time text of the matched row does not parse. *)
Inductive no_start_time (static : res BeautifulSoup) (artist title : str) : Prop :=
| static_fetch_failed :
    static = Raise RequestException ->
    no_start_time static artist title
| table_missing soup :
    static = Ok soup -> playlist_table soup = None ->
    no_start_time static artist title
| no_match_in_top5 soup rows :
    static = Ok soup -> playlist_table soup = Some rows ->
    find (row_matches artist title) (firstn 5 rows) = None ->
    no_start_time static artist title
| time_unparsable soup rows row time_span e :
    static = Ok soup -> playlist_table soup = Some rows ->
    find (row_matches artist title) (firstn 5 rows) = Some row ->
    span_cas row = Some time_span ->
    parse_time_span time_span = Raise e ->
    no_start_time static artist title.

(** ** Concrete inputs *)

Definition example_utc : datetime :=
  Datetime 739193 13 7 42 123456 (Some utc) 0.

Definition example_local : datetime :=
  Datetime 739193 14 7 42 123456 (Some Europe_Bratislava) 0.

(** A page showing "Artist X" with "Song Y". *)
Definition page_artist_x : Chrome :=
  mkChrome (Some (mkWebElement (Some (lit "Artist X")) (Some (lit "Song Y")))).

(** A page whose block never shows. *)
Definition page_no_block : Chrome := mkChrome None.

Definition row_of (time_text artist_text title_text : string) : Row :=
  mkRow (Some [lit time_text]) (Some [lit artist_text]) (Some [lit title_text]).

Definition row_without_time : Row :=
  mkRow None (Some [lit "Artist X"]) (Some [lit "Song Y"]).

(** The track on top, written with other case and spacing, at 14:05. *)
Definition playlist_top_row : list Row :=
  [row_of "14:05" " artist  x" "SONG Y "; row_of "14:01" "Artist Z" "Song W"].

(** The first matching row has no readable time, a later one has. *)
Definition playlist_bad_time : list Row :=
  [row_of "14:09" "Artist Z" "Song W"; row_of "soon" "Artist X" "Song Y";
   row_of "14:05" "Artist X" "Song Y"].

(** Five rows without a time span, then the track. *)
Definition playlist_sixth_row : list Row :=
  [row_without_time; row_without_time; row_without_time; row_without_time;
   row_without_time; row_of "14:05" "Artist X" "Song Y"].

Definition request_of (driver : res Chrome) (static : res BeautifulSoup)
    : request_env :=
  RequestEnv example_utc driver static example_local.

Definition tick_of (random : Z) : tick_env :=
  TickEnv example_utc example_local random.

Definition song_x_y (start_t : pytime) : ResponseModel :=
  IsSong (mkSong RADIO_NAME (lit "Artist X") (lit "Song Y") start_t example_utc).

(** ** The request and its surroundings *)

(** The static fetch ends in one of the two ways [fetch_html_static]
    provides for: a document, or a [RequestException]. *)
Definition fetch_settles (static : res BeautifulSoup) : Prop :=
  match static with
  | Ok _ => True
  | Raise e => e = RequestException
  end.

(** Two answers that differ at most in the start time of the song. *)
Definition same_up_to_start_time (r1 r2 : res ResponseModel) : Prop :=
  match r1, r2 with
  | Ok (IsSong s1), Ok (IsSong s2) =>
      song_radio s1 = song_radio s2 /\ interpreters s1 = interpreters s2
      /\ title s1 = title s2 /\ song_timestamp s1 = song_timestamp s2
  | _, _ => r1 = r2
  end.

(** A whole minute of the day in the station's zone. *)
Definition whole_minute (t : pytime) : Prop :=
  0 <= hour t <= 23 /\ 0 <= minute t <= 59
  /\ second t = 0 /\ microsecond t = 0 /\ time_tzinfo t = Some LOCAL_TZ.


(** ** Text *)

(** A text made of whitespace only. *)
Definition all_space (s : str) : bool := forallb isspace s.

(** A text without a colon. *)
Definition no_colon (s : str) : bool := forallb (fun c => negb (c =? colon)%N) s.

(** A page showing the two given texts. *)
Definition page_showing (interpret_text titul_text : str) : Chrome :=
  mkChrome (Some (mkWebElement (Some interpret_text) (Some titul_text))).


(** A word: a non-empty text without whitespace. *)
Definition no_space (s : str) : bool := forallb (fun c => negb (isspace c)) s.

Definition is_word (s : str) : Prop := s <> [] /\ no_space s = true.

(** What the statements on [norm] need of the case folding: it works
    character by character, [fold_char] giving the folding of each one,
    leaves whitespace as it is and folds any other character to a non-empty
    text without whitespace. *)
Definition folds_by_char (fold : str -> str) (fold_char : char -> str) : Prop :=
  (forall s, fold s = flat_map fold_char s)
  /\ (forall c, isspace c = true -> fold_char c = [c])
  /\ (forall c, isspace c = false -> is_word (fold_char c)).


(** ** Connections *)

(** How the loop is left when a send does not return. *)
Definition closed_by (send : socket_outcome) : connection :=
  match send with
  | Done => Streaming
  | WebSocketDisconnect => ClosedOnDisconnect
  | SocketError => ClosedOnError
  end.

(** A round whose send returns. *)
Definition delivered (r : round) : Prop := round_send r = Done.

(** A round during which the other handlers serve ticks only (other
    connections), no request. *)
Definition only_ticks_meanwhile (r : round) : Prop :=
  exists ticks, round_meanwhile r = map Tick ticks.

(** A count a client can receive. *)
Definition plausible_count (stats : ListenerStats) : Prop :=
  listeners stats = 0 \/ 10 <= listeners stats <= 180.


(** ** Concrete connections and texts *)

Definition two_spaces : str := lit "  ".

Definition tab_newline : str := [0x09%N; 0x0A%N].

(** Two rounds whose sends return, the second one overlapping a request
    that finds the track, then a round whose send finds the client gone,
    then a round that never runs. *)
Definition rounds_sent : list round :=
  [mkRound (tick_of 3) Done [];
   mkRound (tick_of 4) Done
     [Request (request_of (Ok page_artist_x) (Raise RequestException))]].

Definition round_failing : round := mkRound (tick_of 5) WebSocketDisconnect [].

Definition rounds_later : list round := [mkRound (tick_of 6) Done []].

(** Rounds overlapping the ticks of another connection only. *)
Definition rounds_among_ticks : list round :=
  [mkRound (tick_of 3) Done [Tick (tick_of 8)];
   mkRound (tick_of 4) Done [];
   mkRound (tick_of 5) SocketError [Tick (tick_of 9)]].


(** ** The whole request *)

(** Whether an answer is a song. *)
Definition is_song (response : ResponseModel) : bool :=
  match response with
  | IsSong _ => true
  | IsSilence _ => false
  end.

(** A driver step that returns or raises a Selenium error. *)
Definition selenium_errors_only (driver : res Chrome) : Prop :=
  match driver with
  | Ok _ => True
  | Raise e => isinstance e WebDriverException = true
  end.

(** ** Padded texts and rows *)

(** [padded] is [text] with whitespace added before and after. *)
Definition padded_text (text padded : str) : Prop :=
  exists ws1 ws2,
    all_space ws1 = true /\ all_space ws2 = true /\ padded = ws1 ++ text ++ ws2.

(** Two spans, both there or both missing, the text of the second being
    the text of the first padded; the strings inside may be cut anywhere. *)
Definition padded_span (span span' : option Tag) : Prop :=
  match span, span' with
  | Some tag, Some tag' => padded_text (get_text tag) (get_text tag')
  | None, None => True
  | _, _ => False
  end.

(** Two rows with the same time span, the artist and the title of the
    second being those of the first, padded. *)
Definition padded_row (row row' : Row) : Prop :=
  span_cas row = span_cas row'
  /\ padded_span (row_interpret row) (row_interpret row')
  /\ padded_span (row_titul row) (row_titul row').

(** Two documents, both with a table or both without, the rows of the
    second being those of the first, padded. *)
Definition padded_soup (soup soup' : BeautifulSoup) : Prop :=
  match playlist_table soup, playlist_table soup' with
  | Some rows, Some rows' => Forall2 padded_row rows rows'
  | None, None => True
  | _, _ => False
  end.

(** ** More concrete inputs *)


(** A driver whose [quit] returns. *)
Definition quit_returns : cleanup_env := CleanupEnv true (Ok tt).

(** Rows that share only a part of the artist or of the title with the
    track, above the track. *)
Definition playlist_near_misses : list Row :=
  [row_of "09:00" "Artist" "Song Y"; row_of "09:05" "Artist X" "Song";
   row_of "09:10" "Artist Xs" "Song Y"; row_of "14:05" " artist  x" "SONG Y ";
   row_of "14:09" "Artist X" "Song Y"].

(** A table, and the same with the second row padded, its artist cut into
    several strings. *)
Definition playlist_plain : list Row :=
  [row_of "09:00" "Artist Z" "Song W"; row_of "14:05" "Artist X" "Song Y"].

Definition playlist_padded : list Row :=
  [row_of "09:00" "Artist Z" "Song W";
   mkRow (Some [lit "14:05"])
     (Some [two_spaces; lit "Artist"; lit " X"; tab_newline])
     (Some [tab_newline ++ lit "Song Y"])].

(** The first matching row, third of the table, reads 25:00. *)
Definition playlist_late_bad_time : list Row :=
  [row_without_time; row_of "09:00" "Artist Z" "Song W";
   row_of "25:00" "Artist X" "Song Y"; row_of "14:05" "Artist X" "Song Y"].


(* ================================================================== *)
(** * Properties of the listener simulator *)
(* ================================================================== *)

Lemma get_hourly_base_range_in_bands (h : Z) :
  In (get_hourly_base_range h) bands.
Proof.
  unfold get_hourly_base_range, bands.
  repeat match goal with
         | |- context [if ?b then _ else _] => destruct b
         end; simpl; auto 10.
Qed.

(** The table of the specification, hour by hour. *)
Lemma get_hourly_base_range_table (h : Z) :
  (0 <= h <= 5 -> get_hourly_base_range h = (10, 40)) /\
  (6 <= h <= 8 -> get_hourly_base_range h = (100, 150)) /\
  (9 <= h <= 11 -> get_hourly_base_range h = (80, 130)) /\
  (12 <= h <= 14 -> get_hourly_base_range h = (70, 110)) /\
  (15 <= h <= 18 -> get_hourly_base_range h = (120, 180)) /\
  (19 <= h <= 22 -> get_hourly_base_range h = (50, 90)) /\
  (h = 23 -> get_hourly_base_range h = (30, 60)) /\
  (h < 0 \/ 23 < h -> get_hourly_base_range h = (50, 80)).
Proof.
  unfold get_hourly_base_range.
  repeat split; intros;
    repeat match goal with
           | |- context [?a <=? ?b] => destruct (Z.leb_spec a b); try lia
           | |- context [?a =? ?b] => destruct (Z.eqb_spec a b); try lia
           end; simpl; reflexivity.
Qed.

(** On every band of the table the binary64 product truncates to the exact
    floor, and the band is not empty. *)
Lemma band_facts (min_base max_base : Z) :
  In (min_base, max_base) bands ->
  min_base <= max_base /\
  max_change_of min_base max_base = max_change_exact min_base max_base.
Proof.
  unfold bands; simpl; intros H.
  repeat (destruct H as [H | H]; [inversion H; subst; split; [lia | vm_compute; reflexivity] | ]).
  contradiction.
Qed.

Lemma max_change_exact_pos (min_base max_base : Z) :
  min_base <= max_base -> 2 <= max_change_exact min_base max_base.
Proof.
  intros H. unfold max_change_exact.
  assert (0 <= (max_base - min_base) * 15 / 100) by (apply Z.div_pos; lia).
  lia.
Qed.

Lemma randint_ok (a b r : Z) :
  a <= b -> randint a b r = Ok (a + r mod (b - a + 1)).
Proof.
  intros H. unfold randint, _randbelow.
  destruct (Z.ltb_spec 0 (b + 1 - a)); [ | lia].
  do 2 f_equal. f_equal. lia.
Qed.

Lemma randint_range (a b r v : Z) :
  randint a b r = Ok v -> a <= v <= b.
Proof.
  unfold randint, _randbelow. destruct (Z.ltb_spec 0 (b + 1 - a)); [ | discriminate].
  intros E; inversion E; subst.
  pose proof (Z.mod_pos_bound r (b + 1 - a)). lia.
Qed.

(** Uniformity of the modelled draw: over one period of the raw value,
    each value of [a..b] comes from exactly one residue. *)
Lemma randint_uniform (a b v r : Z) :
  a <= v <= b -> 0 <= r < b - a + 1 ->
  (randint a b r = Ok v <-> r = v - a).
Proof.
  intros Hv Hr. rewrite randint_ok by lia.
  rewrite Z.mod_small by lia. split.
  - intros E; inversion E; lia.
  - intros ->. f_equal. lia.
Qed.

(** The clamp of line 196 lands in the band whatever it is given. *)
Lemma clamp_within (min_base max_base x : Z) :
  min_base <= max_base ->
  min_base <= Z.max min_base (Z.min x max_base) <= max_base.
Proof. lia. Qed.

(** What a tick computes while the flag is set, with the band and the
    bound of the walk in exact arithmetic. *)
Lemma tick_playing_value (env : tick_env) (last : Z) :
  let band := get_hourly_base_range (dt_hour (tick_now_local env)) in
  let min_base := fst band in
  let max_base := snd band in
  let max_change := max_change_exact min_base max_base in
  let sample := min_base + tick_random env mod (max_base - min_base + 1) in
  let delta := - max_change + tick_random env mod (2 * max_change + 1) in
  let new_listeners :=
    if last =? 0 then sample
    else Z.max min_base (Z.min (last + delta) max_base) in
  generate_listeners_stats env (Globals true last)
  = (Ok (mkListenerStats new_listeners (tick_now_utc env)),
     Globals true new_listeners).
Proof.
  intros band min_base max_base max_change sample delta new_listeners.
  pose proof (get_hourly_base_range_in_bands (dt_hour (tick_now_local env))) as Hin.
  fold band in Hin.
  assert (Hb : band = (min_base, max_base)) by (subst min_base max_base; destruct band; reflexivity).
  rewrite Hb in Hin. destruct (band_facts _ _ Hin) as [Hle Hmc].
  pose proof (max_change_exact_pos _ _ Hle) as Hpos. fold max_change in Hpos.
  unfold generate_listeners_stats; cbn [is_radio_playing negb last_listeners].
  fold band. rewrite Hb.
  subst new_listeners. destruct (Z.eqb_spec last 0) as [-> | Hne].
  - rewrite randint_ok by exact Hle. fold sample.
    assert (min_base <= sample <= max_base).
    { subst sample. pose proof (Z.mod_pos_bound (tick_random env) (max_base - min_base + 1)). lia. }
    replace (Z.max min_base (Z.min sample max_base)) with sample by lia.
    reflexivity.
  - rewrite Hmc. fold max_change. rewrite randint_ok by lia.
    replace (max_change - - max_change + 1) with (2 * max_change + 1) by lia.
    cbn [bind]. fold delta. reflexivity.
Qed.

(** C2. For every local hour (so for each of 0..23), a tick taken while
    [is_radio_playing] is true returns a count inside the band the hourly
    table gives for that hour, whatever the previous count and whatever the
    random draw; a tick taken while it is false returns exactly 0. *)
Theorem tick_within_band (env : tick_env) (last : Z) :
  let band := get_hourly_base_range (dt_hour (tick_now_local env)) in
  (exists n,
      generate_listeners_stats env (Globals true last)
      = (Ok (mkListenerStats n (tick_now_utc env)), Globals true n)
      /\ fst band <= n <= snd band)
  /\ generate_listeners_stats env (Globals false last)
     = (Ok (mkListenerStats 0 (tick_now_utc env)), Globals false 0).
Proof.
  intros band. split; [ | reflexivity].
  pose proof (tick_playing_value env last) as Hv. cbv zeta in Hv. fold band in Hv.
  eexists; split; [exact Hv | ].
  pose proof (get_hourly_base_range_in_bands (dt_hour (tick_now_local env))) as Hin.
  fold band in Hin. destruct band as [mn mx]; cbn [fst snd] in *.
  destruct (band_facts _ _ Hin) as [Hle _].
  destruct (last =? 0); [ | apply clamp_within; exact Hle].
  pose proof (Z.mod_pos_bound (tick_random env) (mx - mn + 1)). lia.
Qed.

(** C3. A tick while [is_radio_playing] is true looks up the band of the
    current hour; if the rolling state is 0 it draws the count with
    [randint(min, max)]; otherwise it takes
    [max_change = floor((max - min) * 0.15) + 2], draws a delta with
    [randint(-max_change, max_change)], adds it to the previous count and
    clamps the sum into the band. The count is stored as the new rolling
    state and returned. *)
Theorem tick_playing_computation (env : tick_env) (last : Z) :
  let band := get_hourly_base_range (dt_hour (tick_now_local env)) in
  let min_base := fst band in
  let max_base := snd band in
  let max_change := (max_base - min_base) * 15 / 100 + 2 in
  exists sample delta,
    randint min_base max_base (tick_random env) = Ok sample
    /\ min_base <= sample <= max_base
    /\ randint (- max_change) max_change (tick_random env) = Ok delta
    /\ - max_change <= delta <= max_change
    /\ let new_listeners :=
         if last =? 0 then sample
         else Z.max min_base (Z.min (last + delta) max_base) in
       generate_listeners_stats env (Globals true last)
       = (Ok (mkListenerStats new_listeners (tick_now_utc env)),
          Globals true new_listeners).
Proof.
  intros band min_base max_base max_change.
  pose proof (get_hourly_base_range_in_bands (dt_hour (tick_now_local env))) as Hin.
  fold band in Hin.
  assert (Hb : band = (min_base, max_base)) by (subst min_base max_base; destruct band; reflexivity).
  rewrite Hb in Hin. destruct (band_facts _ _ Hin) as [Hle _].
  pose proof (max_change_exact_pos _ _ Hle) as Hpos.
  unfold max_change_exact in Hpos. fold max_change in Hpos.
  exists (min_base + tick_random env mod (max_base - min_base + 1)).
  exists (- max_change + tick_random env mod (2 * max_change + 1)).
  split; [apply randint_ok; exact Hle | ].
  split; [pose proof (Z.mod_pos_bound (tick_random env) (max_base - min_base + 1)); lia | ].
  split; [rewrite randint_ok by lia; do 3 f_equal; lia | ].
  split; [pose proof (Z.mod_pos_bound (tick_random env) (2 * max_change + 1)); lia | ].
  exact (tick_playing_value env last).
Qed.

(* ================================================================== *)
(** * Properties of the on-air extraction *)
(* ================================================================== *)

Lemma str_eqb_eq (a b : str) : str_eqb a b = true <-> a = b.
Proof.
  revert b; induction a as [ | x a IH]; intros [ | y b]; simpl;
    try (split; [discriminate | congruence]); [tauto | ].
  rewrite andb_true_iff, N.eqb_eq, IH. split.
  - intros [-> ->]; reflexivity.
  - intros E; inversion E; auto.
Qed.

Lemma str_eqb_refl (a : str) : str_eqb a a = true.
Proof. apply str_eqb_eq; reflexivity. Qed.

Lemma str_in_In (s : str) (patterns : list str) :
  str_in s patterns = true <-> In s patterns.
Proof.
  unfold str_in. rewrite existsb_exists. split.
  - intros [p [Hin E]]. apply str_eqb_eq in E. subst; exact Hin.
  - intros Hin. exists s. split; [exact Hin | apply str_eqb_refl].
Qed.

Lemma is_empty_nil (s : str) : is_empty s = true <-> s = [].
Proof. destruct s; simpl; split; congruence. Qed.

(** The extraction, case by case on what the page shows. *)
Lemma scrape_onair_dynamic_cases (driver : Chrome) :
  match radio_profil_play driver with
  | None => scrape_onair_dynamic driver = Raise TimeoutException
  | Some block =>
      match span_interpret block, span_titul block with
      | Some interpret_text, Some titul_text =>
          scrape_onair_dynamic driver =
          if str_in (join (lit " ") (split_ws (lower (strip titul_text))))
               silence_patterns
             || is_empty (strip interpret_text) || is_empty (strip titul_text)
          then Ok None
          else Ok (Some (mkOnAir (strip interpret_text) (strip titul_text)))
      | _, _ => scrape_onair_dynamic driver = Ok None
      end
  end.
Proof.
  unfold scrape_onair_dynamic.
  destruct (radio_profil_play driver) as [block | ]; [ | reflexivity].
  cbn [wait_until_presence find_element bind].
  destruct (span_interpret block) as [i | ]; [ | reflexivity].
  destruct (span_titul block) as [t | ]; reflexivity.
Qed.

(** A candidate comes with both texts found, non-empty after [strip], and
    a title that is not a silence phrase. *)
Lemma scrape_onair_dynamic_some (driver : Chrome) (onair : OnAir) :
  scrape_onair_dynamic driver = Ok (Some onair) ->
  onair_interpreters onair <> [] /\ onair_title onair <> []
  /\ ~ In (join (lit " ") (split_ws (lower (onair_title onair)))) silence_patterns
  /\ exists block interpret_text titul_text,
       radio_profil_play driver = Some block
       /\ span_interpret block = Some interpret_text
       /\ span_titul block = Some titul_text
       /\ onair = mkOnAir (strip interpret_text) (strip titul_text).
Proof.
  pose proof (scrape_onair_dynamic_cases driver) as C.
  destruct (radio_profil_play driver) as [block | ]; [ | congruence].
  destruct (span_interpret block) as [i | ] eqn:Ei; [ | congruence].
  destruct (span_titul block) as [t | ] eqn:Et; [ | congruence].
  rewrite C; clear C.
  destruct (str_in _ silence_patterns) eqn:Hs; [discriminate | ].
  destruct (is_empty (strip i)) eqn:Hi; [discriminate | ].
  destruct (is_empty (strip t)) eqn:Ht; [discriminate | ].
  cbn [orb]. intros E; inversion E; subst; cbn [onair_interpreters onair_title].
  split; [intros Hn; apply is_empty_nil in Hn; congruence | ].
  split; [intros Hn; apply is_empty_nil in Hn; congruence | ].
  split; [intros Hin; apply str_in_In in Hin; congruence | ].
  exists block, i, t. auto.
Qed.

(** The only exception the extraction raises is the timeout of the wait. *)
Lemma scrape_onair_dynamic_raises (driver : Chrome) (e : exn) :
  scrape_onair_dynamic driver = Raise e ->
  e = TimeoutException /\ radio_profil_play driver = None.
Proof.
  pose proof (scrape_onair_dynamic_cases driver) as C.
  destruct (radio_profil_play driver) as [block | ]; [ | split; congruence].
  destruct (span_interpret block) as [i | ]; [ | congruence].
  destruct (span_titul block) as [t | ]; [ | congruence].
  rewrite C. destruct (_ || _ || _); discriminate.
Qed.

(* ================================================================== *)
(** * Properties of the resolution *)
(* ================================================================== *)

Lemma now_playing_ends (env : request_env) (g : globals) :
  now_playing_outcome env g (now_playing env g).
Proof.
  unfold now_playing, try_except.
  destruct (req_driver env) as [driver | e] eqn:Hd; cbn [bind].
  - destruct (scrape_onair_dynamic driver) as [[onair | ] | e] eqn:Hs; cbn [bind].
    + destruct (fetch_html_static (req_static env)) as [[soup | ] | e']; cbn [bind].
      * destruct (try_get_start_time_from_playlist soup _ _) as [start_t | e''].
        -- eapply ends_song; eauto.
        -- apply ends_raising.
      * eapply ends_song; eauto.
      * apply ends_raising.
    + eapply ends_nothing_playing; eauto.
    + destruct (except_classes _ e) eqn:Hc.
      * eapply ends_upstream_unavailable; eauto.
      * apply ends_raising.
  - destruct (except_classes _ e) eqn:Hc.
    + eapply ends_upstream_unavailable; eauto.
    + apply ends_raising.
Qed.

(** A request never writes [last_listeners]. *)
Lemma now_playing_last_listeners (env : request_env) (g : globals) :
  last_listeners (snd (now_playing env g)) = last_listeners g.
Proof. destruct (now_playing_ends env g); reflexivity. Qed.

(** A tick never writes [is_radio_playing]. *)
Lemma generate_listeners_stats_is_radio_playing (env : tick_env) (g : globals) :
  is_radio_playing (snd (generate_listeners_stats env g)) = is_radio_playing g.
Proof.
  unfold generate_listeners_stats.
  destruct (is_radio_playing g) eqn:Hp; cbn [negb]; [ | reflexivity].
  destruct (get_hourly_base_range _) as [mn mx].
  match goal with |- context [match ?d with Ok _ => _ | Raise _ => _ end] => destruct d end;
    cbn [snd is_radio_playing]; auto.
Qed.

(** C8. With both spans found, the extraction returns [None] exactly when
    the title, trimmed, lower-cased and with its whitespace collapsed, is
    one of the silence phrases, or the artist or the title is empty after
    trimming; otherwise it returns the two trimmed texts. Consequently a
    [Song] is only answered with both fields non-empty and a title that is
    not a silence phrase. *)
Theorem extractor_none_iff (interpret_text titul_text : str) :
  let driver :=
    mkChrome (Some (mkWebElement (Some interpret_text) (Some titul_text))) in
  let t_norm := join (lit " ") (split_ws (lower (strip titul_text))) in
  (scrape_onair_dynamic driver = Ok None
   <-> In t_norm silence_patterns
       \/ strip interpret_text = [] \/ strip titul_text = [])
  /\ (scrape_onair_dynamic driver = Ok None
      \/ scrape_onair_dynamic driver
         = Ok (Some (mkOnAir (strip interpret_text) (strip titul_text))))
  /\ (forall env g s g',
        now_playing env g = (Ok (IsSong s), g') ->
        interpreters s <> [] /\ title s <> []
        /\ ~ In (join (lit " ") (split_ws (lower (title s)))) silence_patterns).
Proof.
  intros driver t_norm.
  pose proof (scrape_onair_dynamic_cases driver) as C.
  cbn [driver radio_profil_play span_interpret span_titul] in C. fold t_norm in C.
  split; [ | split].
  - rewrite C.
    destruct (str_in t_norm silence_patterns) eqn:Hs;
      [cbn [orb]; split; [intros _; left; apply str_in_In; exact Hs | reflexivity] | ].
    destruct (is_empty (strip interpret_text)) eqn:Hi;
      [cbn [orb]; split; [intros _; right; left; apply is_empty_nil; exact Hi | reflexivity] | ].
    destruct (is_empty (strip titul_text)) eqn:Ht;
      [cbn [orb]; split; [intros _; right; right; apply is_empty_nil; exact Ht | reflexivity] | ].
    cbn [orb]. split; [discriminate | ].
    intros [Hin | [Hn | Hn]].
    + apply str_in_In in Hin. congruence.
    + apply is_empty_nil in Hn. congruence.
    + apply is_empty_nil in Hn. congruence.
  - rewrite C. destruct (_ || _ || _); auto.
  - intros env g s g' E.
    pose proof (now_playing_ends env g) as O. rewrite E in O.
    inversion O as [ | | d onair start_t Hd Hs | ]; subst.
    destruct (scrape_onair_dynamic_some _ _ Hs) as [Hi [Ht [Hn _]]].
    cbn [interpreters title]. auto.
Qed.

(** C9, as the code has it. When the on-air block is on the page but one of
    its two spans cannot be located, the extraction returns [None] and the
    request answers "Nothing is playing right now."; when the block does not
    show within the wait, the extraction raises the timeout instead, and the
    request answers "Upstream page unavailable.". Either way the flag is
    cleared. *)
Theorem missing_region_or_fields
    (ts_utc now_local : datetime) (static : res BeautifulSoup) (g : globals)
    (interpret_text titul_text : option str) :
  let no_interpret := mkChrome (Some (mkWebElement None titul_text)) in
  let no_titul := mkChrome (Some (mkWebElement interpret_text None)) in
  let no_block := mkChrome None in
  let request driver := RequestEnv ts_utc (Ok driver) static now_local in
  scrape_onair_dynamic no_interpret = Ok None
  /\ scrape_onair_dynamic no_titul = Ok None
  /\ now_playing (request no_interpret) g
     = (Ok (nothing_is_playing ts_utc), set_is_radio_playing g false)
  /\ now_playing (request no_titul) g
     = (Ok (nothing_is_playing ts_utc), set_is_radio_playing g false)
  /\ scrape_onair_dynamic no_block = Raise TimeoutException
  /\ now_playing (request no_block) g
     = (Ok (upstream_unavailable ts_utc), set_is_radio_playing g false).
Proof.
  intros no_interpret no_titul no_block request.
  assert (H1 : scrape_onair_dynamic no_interpret = Ok None) by reflexivity.
  assert (H2 : scrape_onair_dynamic no_titul = Ok None)
    by (destruct interpret_text; reflexivity).
  assert (H3 : scrape_onair_dynamic no_block = Raise TimeoutException) by reflexivity.
  repeat split; try assumption;
    unfold now_playing, request; cbn [req_driver bind];
    rewrite ?H1, ?H2, ?H3; reflexivity.
Qed.

(* ================================================================== *)
(** * Silence and the simulator *)
(* ================================================================== *)

(** While no request answers with a song, a cleared flag stays cleared. *)
Lemma quiet_run_flag (calls : list call) :
  forall g,
    is_radio_playing g = false -> no_song calls g ->
    is_radio_playing (run calls g) = false.
Proof.
  induction calls as [ | c rest IH]; intros g Hp Hq; [exact Hp | ].
  cbn [run no_song] in *. destruct Hq as [Hc Hq].
  apply IH; [ | exact Hq]. clear IH Hq.
  destruct c as [env | env]; cbn [step] in *.
  - pose proof (now_playing_ends env g) as O.
    destruct (now_playing env g) as [r g'] eqn:E. cbn [fst snd] in *.
    inversion O; subst; cbn; auto. contradiction.
  - pose proof (generate_listeners_stats_is_radio_playing env g) as F.
    destruct (generate_listeners_stats env g) as [r g']. cbn [fst snd] in *.
    congruence.
Qed.

(** While no request answers with a song, a cleared flag and a rolling
    state of 0 stay as they are. *)
Lemma quiet_run (calls : list call) :
  forall g,
    is_radio_playing g = false -> last_listeners g = 0 ->
    no_song calls g ->
    is_radio_playing (run calls g) = false /\ last_listeners (run calls g) = 0.
Proof.
  induction calls as [ | c rest IH]; intros g Hp Hl Hq; [auto | ].
  cbn [run no_song] in *. destruct Hq as [Hc Hq].
  apply IH; try exact Hq; clear IH Hq.
  - destruct c as [env | env]; cbn [step] in *.
    + pose proof (now_playing_ends env g) as O.
      destruct (now_playing env g) as [r g'] eqn:E. cbn [fst snd] in *.
      inversion O; subst; cbn; auto. contradiction.
    + pose proof (generate_listeners_stats_is_radio_playing env g) as F.
      destruct (generate_listeners_stats env g) as [r g']. cbn [fst snd] in *.
      congruence.
  - destruct c as [env | env]; cbn [step].
    + pose proof (now_playing_last_listeners env g) as L.
      destruct (now_playing env g) as [r g']. cbn [snd] in *. congruence.
    + unfold generate_listeners_stats. rewrite Hp. reflexivity.
Qed.

(** C4. Let a request answer [Silence] while the flag was true, so that the
    flag goes from true to false, and let playing not resume before the next
    tick (no request in between answers with a song). That tick answers 0
    and resets the rolling state to 0. Let any calls follow in which no
    request answers with a song, and then a request that does: the flag is
    true again, and the first tick after it draws its count with
    [randint(min, max)] over the band of its hour (the cold-start branch),
    not by a walk from 0. *)
Theorem silence_resets_then_resamples
    (g g1 g4 : globals) (e1 e2 : request_env) (s1 : Silence) (s2 : Song)
    (t1 t2 : tick_env) (before quiet : list call) :
  is_radio_playing g = true ->
  now_playing e1 g = (Ok (IsSilence s1), g1) ->
  no_song before g1 ->
  no_song quiet (snd (generate_listeners_stats t1 (run before g1))) ->
  now_playing e2 (run quiet (snd (generate_listeners_stats t1 (run before g1))))
  = (Ok (IsSong s2), g4) ->
  let band := get_hourly_base_range (dt_hour (tick_now_local t2)) in
  is_radio_playing g1 = false
  /\ generate_listeners_stats t1 (run before g1)
     = (Ok (mkListenerStats 0 (tick_now_utc t1)), Globals false 0)
  /\ is_radio_playing g4 = true
  /\ exists n,
       randint (fst band) (snd band) (tick_random t2) = Ok n
       /\ fst band <= n <= snd band
       /\ generate_listeners_stats t2 g4
          = (Ok (mkListenerStats n (tick_now_utc t2)), Globals true n).
Proof.
  intros Hg E1 Hb Hq E2 band.
  assert (Hp1 : is_radio_playing g1 = false).
  { pose proof (now_playing_ends e1 g) as O. rewrite E1 in O.
    inversion O; subst; reflexivity. }
  pose proof (quiet_run_flag before g1 Hp1 Hb) as Hp2.
  assert (Ht1 : generate_listeners_stats t1 (run before g1)
                = (Ok (mkListenerStats 0 (tick_now_utc t1)), Globals false 0)).
  { unfold generate_listeners_stats. rewrite Hp2. reflexivity. }
  rewrite Ht1 in Hq, E2. cbn [snd] in Hq, E2.
  destruct (quiet_run quiet (Globals false 0) eq_refl eq_refl Hq) as [Hp3 Hl3].
  assert (Hg4 : g4 = Globals true 0).
  { pose proof (now_playing_ends e2 (run quiet (Globals false 0))) as O.
    rewrite E2 in O. inversion O; subst.
    unfold set_is_radio_playing. rewrite Hl3. reflexivity. }
  subst g4. repeat split; try assumption.
  pose proof (tick_playing_value t2 0) as Hv. cbv zeta in Hv. fold band in Hv.
  cbn [Z.eqb] in Hv.
  pose proof (get_hourly_base_range_in_bands (dt_hour (tick_now_local t2))) as Hin.
  fold band in Hin. destruct band as [mn mx]; cbn [fst snd] in *.
  destruct (band_facts _ _ Hin) as [Hle _].
  exists (mn + tick_random t2 mod (mx - mn + 1)).
  split; [apply randint_ok; exact Hle | ].
  split; [pose proof (Z.mod_pos_bound (tick_random t2) (mx - mn + 1)); lia | exact Hv].
Qed.

(* ================================================================== *)
(** * Properties of the playlist lookup *)
(* ================================================================== *)

Lemma row_matches_iff (artist title : str) (row : Row) :
  row_matches artist title row = true <->
  exists time_span artist_span title_span,
    span_cas row = Some time_span
    /\ row_interpret row = Some artist_span
    /\ row_titul row = Some title_span
    /\ norm (get_text artist_span) = norm artist
    /\ norm (get_text title_span) = norm title.
Proof.
  unfold row_matches.
  destruct (span_cas row) as [ts | ], (row_interpret row) as [ar | ],
    (row_titul row) as [ti | ];
    try (split; [discriminate | intros (? & ? & ? & ? & ? & ? & _); discriminate]).
  rewrite andb_true_iff, !str_eqb_eq. split.
  - intros [Ha Ht]. exists ts, ar, ti. auto.
  - intros (? & ? & ? & E1 & E2 & E3 & Ha & Ht).
    inversion E2; inversion E3; subst. auto.
Qed.

Lemma lacks_span_no_match (artist title : str) (row : Row) :
  lacks_span row -> row_matches artist title row = false.
Proof.
  unfold lacks_span, row_matches. intros [H | [H | H]]; rewrite H;
    repeat match goal with |- context [match ?x with Some _ => _ | None => _ end] =>
                             destruct x end; reflexivity.
Qed.

(** The loop answers on the first row that matches. *)
Lemma scan_rows_find (artist title : str) (rows : list Row) :
  scan_rows (norm artist) (norm title) rows
  = match find (row_matches artist title) rows with
    | Some row => on_match row
    | None => Ok None
    end.
Proof.
  induction rows as [ | row rest IH]; [reflexivity | ].
  cbn [scan_rows find]. unfold row_matches at 1, on_match.
  destruct (span_cas row) as [ts | ] eqn:Ec; [ | exact IH].
  destruct (row_interpret row) as [ar | ]; [ | exact IH].
  destruct (row_titul row) as [ti | ]; [ | exact IH].
  destruct (_ && _); [rewrite Ec; reflexivity | exact IH].
Qed.

Lemma try_get_start_time_find (rows : list Row) (artist title : str) :
  try_get_start_time_from_playlist (mkSoup (Some rows)) artist title
  = match find (row_matches artist title) (firstn 5 rows) with
    | Some row => on_match row
    | None => Ok None
    end.
Proof.
  unfold try_get_start_time_from_playlist; cbn [playlist_table].
  destruct rows as [ | row rest]; [reflexivity | ].
  apply scan_rows_find.
Qed.

Lemma on_match_returns (row : Row) : exists r, on_match row = Ok r.
Proof.
  unfold on_match, try_except. destruct (span_cas row) as [ts | ]; [ | eauto].
  destruct (parse_time_span ts); cbn [except_Exception]; eauto.
Qed.

(** ** Reading a time written [HH:MM] *)

Lemma is_digit_cases (c : char) :
  is_digit c = true ->
  In c [0x30; 0x31; 0x32; 0x33; 0x34; 0x35; 0x36; 0x37; 0x38; 0x39]%N.
Proof.
  unfold is_digit. rewrite andb_true_iff, !N.leb_le. intros [H1 H2].
  assert (c = 0x30 \/ c = 0x31 \/ c = 0x32 \/ c = 0x33 \/ c = 0x34 \/ c = 0x35
          \/ c = 0x36 \/ c = 0x37 \/ c = 0x38 \/ c = 0x39)%N as H by lia.
  simpl. intuition.
Qed.

Lemma int_of_two_digits (a b : char) :
  is_digit a = true -> is_digit b = true ->
  int_of_str [a; b] = Ok (10 * (Z.of_N a - 0x30) + (Z.of_N b - 0x30)).
Proof.
  intros Ha Hb. apply is_digit_cases in Ha. apply is_digit_cases in Hb.
  simpl in Ha, Hb.
  repeat (destruct Ha as [Ha | Ha]; [subst a | ]); try contradiction;
    repeat (destruct Hb as [Hb | Hb]; [subst b | ]); try contradiction;
    reflexivity.
Qed.

Lemma two_digits_digits (n : Z) :
  0 <= n <= 99 ->
  exists a b, two_digits n = [a; b] /\ is_digit a = true /\ is_digit b = true
              /\ 10 * (Z.of_N a - 0x30) + (Z.of_N b - 0x30) = n.
Proof.
  intros Hn. unfold two_digits. eexists; eexists; split; [reflexivity | ].
  pose proof (Z.mod_pos_bound n 10).
  pose proof (Z.div_mod n 10).
  assert (0 <= n / 10 <= 9) by lia.
  unfold is_digit. rewrite !andb_true_iff, !N.leb_le.
  rewrite !N2Z.inj_add, !Z2N.id by lia.
  repeat split; lia.
Qed.

Lemma is_digit_not_colon (c : char) : is_digit c = true -> (c =? colon)%N = false.
Proof.
  unfold is_digit, colon. rewrite andb_true_iff, !N.leb_le. intros [H1 H2].
  apply N.eqb_neq. lia.
Qed.

Lemma split_hh_mm (a b c d : char) (rest : str) :
  is_digit a = true -> is_digit b = true ->
  is_digit c = true -> is_digit d = true ->
  rest = [] \/ (exists tail, rest = colon :: tail) ->
  firstn 2 (split_on colon (a :: b :: colon :: c :: d :: rest)) = [[a; b]; [c; d]].
Proof.
  intros Ha Hb Hc Hd Hrest.
  unfold split_on. cbn [split_on_from].
  rewrite (is_digit_not_colon a Ha), (is_digit_not_colon b Hb),
    (is_digit_not_colon c Hc), (is_digit_not_colon d Hd), N.eqb_refl.
  destruct Hrest as [-> | [tail ->]]; cbn [split_on_from].
  - reflexivity.
  - rewrite N.eqb_refl. reflexivity.
Qed.

(** A time span whose stripped text is [HH:MM], or [HH:MM:] and anything,
    parses to that hour and minute in the station's zone. *)
Lemma parse_time_span_hh_mm (time_span : Tag) (h m : Z) (rest : str) :
  0 <= h <= 23 -> 0 <= m <= 59 ->
  rest = [] \/ (exists tail, rest = colon :: tail) ->
  get_text_strip time_span = two_digits h ++ colon :: two_digits m ++ rest ->
  parse_time_span time_span = Ok (Some (Time h m 0 0 (Some LOCAL_TZ) 0)).
Proof.
  intros Hh Hm Hrest Htext.
  destruct (two_digits_digits h) as (a & b & Eh & Ha & Hb & Vh); [lia | ].
  destruct (two_digits_digits m) as (c & d & Em & Hc & Hd & Vm); [lia | ].
  unfold parse_time_span. rewrite Htext, Eh, Em. cbn [app].
  fold colon. rewrite (split_hh_mm a b c d rest Ha Hb Hc Hd Hrest).
  cbn [unpack2 bind].
  rewrite (int_of_two_digits a b Ha Hb), (int_of_two_digits c d Hc Hd).
  cbn [bind]. rewrite Vh, Vm. unfold time_of.
  destruct (Z.leb_spec 0 h); [ | lia]. destruct (Z.leb_spec h 23); [ | lia].
  destruct (Z.leb_spec 0 m); [ | lia]. destruct (Z.leb_spec m 59); [ | lia].
  reflexivity.
Qed.

Lemma find_app_none {A} (f : A -> bool) (l1 l2 : list A) :
  find f l1 = None -> find f (l1 ++ l2) = find f l2.
Proof.
  induction l1 as [ | x l1 IH]; [reflexivity | ].
  cbn [find app]. destruct (f x); [discriminate | exact IH].
Qed.

Lemma find_none_forall {A} (f : A -> bool) (l : list A) :
  (forall x, In x l -> f x = false) -> find f l = None.
Proof.
  induction l as [ | x l IH]; intros H; [reflexivity | ].
  cbn [find]. rewrite (H x (or_introl eq_refl)).
  apply IH. intros y Hy. apply H. right; exact Hy.
Qed.

(** C6. The lookup never raises: it always returns, and it returns [None]
    when the document has no playlist table, when the table has no rows,
    when none of the first 5 rows matches, and when the time text of the
    first matching row does not parse; in that last case the answer is
    [None] whatever rows come after the matched one. *)
Theorem lookup_never_raises (soup : BeautifulSoup) (artist title : str) :
  (exists r, try_get_start_time_from_playlist soup artist title = Ok r)
  /\ (playlist_table soup = None ->
      try_get_start_time_from_playlist soup artist title = Ok None)
  /\ (playlist_table soup = Some [] ->
      try_get_start_time_from_playlist soup artist title = Ok None)
  /\ (forall rows,
        playlist_table soup = Some rows ->
        find (row_matches artist title) (firstn 5 rows) = None ->
        try_get_start_time_from_playlist soup artist title = Ok None)
  /\ (forall before row after time_span e,
        playlist_table soup = Some (before ++ row :: after) ->
        (List.length before < 5)%nat ->
        find (row_matches artist title) before = None ->
        row_matches artist title row = true ->
        span_cas row = Some time_span ->
        parse_time_span time_span = Raise e ->
        try_get_start_time_from_playlist soup artist title = Ok None).
Proof.
  destruct soup as [table].
  split; [ | split; [ | split; [ | split]]].
  - destruct table as [rows | ]; [ | exists None; reflexivity].
    rewrite try_get_start_time_find.
    destruct (find _ _) as [row | ]; [apply on_match_returns | eauto].
  - cbn [playlist_table]. intros ->. reflexivity.
  - cbn [playlist_table]. intros ->. reflexivity.
  - cbn [playlist_table]. intros rows -> Hf.
    rewrite try_get_start_time_find, Hf. reflexivity.
  - cbn [playlist_table]. intros before row after time_span e -> Hlen Hb Hr Hc Hp.
    rewrite try_get_start_time_find.
    rewrite firstn_app, (firstn_all2 (n := 5) before) by lia.
    rewrite (find_app_none _ _ _ Hb).
    destruct (5 - List.length before)%nat as [ | k] eqn:Hk; [lia | ].
    cbn [firstn find]. rewrite Hr.
    unfold on_match, try_except. rewrite Hc, Hp. reflexivity.
Qed.

(** C10. A row that lacks its time, artist or title span is passed over
    without failing and takes one of the 5 slots: after it the lookup goes on
    over the next 4 rows only. So when none of the first 5 rows matches,
    malformed or not, the answer is [None] whatever rows follow them, a
    matching sixth row included. *)
Theorem malformed_row_consumes_slot (artist title : str) :
  (forall row rows,
      lacks_span row ->
      try_get_start_time_from_playlist (mkSoup (Some (row :: rows))) artist title
      = try_get_start_time_from_playlist (mkSoup (Some (firstn 4 rows))) artist title)
  /\ (forall front rest,
        List.length front = 5%nat ->
        (forall row, In row front ->
                     lacks_span row \/ row_matches artist title row = false) ->
        try_get_start_time_from_playlist (mkSoup (Some (front ++ rest))) artist title
        = Ok None).
Proof.
  split.
  - intros row rows Hl. rewrite !try_get_start_time_find.
    rewrite firstn_firstn. cbn [firstn Nat.min find].
    rewrite (lacks_span_no_match artist title row Hl). reflexivity.
  - intros front rest Hlen Hall. rewrite try_get_start_time_find.
    rewrite firstn_app, Hlen, Nat.sub_diag, firstn_O, app_nil_r.
    rewrite firstn_all2 by lia.
    rewrite find_none_forall; [reflexivity | ].
    intros row Hin. destruct (Hall row Hin) as [Hl | Hn];
      [apply lacks_span_no_match; exact Hl | exact Hn].
Qed.

(* ================================================================== *)
(** * The fallback start time *)
(* ================================================================== *)

(** C7. When the extraction gives a candidate and the static side gives no
    start time (the fetch fails, the table is missing, no row of the first
    5 matches, or the matched row's time does not parse), the request still
    answers a [Song]: its start time is the local time read by the
    fallback with second and microsecond set to 0, in the station's time
    zone; artist and title are the candidate's and the timestamp is the one
    taken on entry. The flag is set. *)
Theorem fallback_start_time
    (env : request_env) (g : globals) (driver : Chrome) (onair : OnAir) :
  req_driver env = Ok driver ->
  scrape_onair_dynamic driver = Ok (Some onair) ->
  no_start_time (req_static env) (onair_interpreters onair) (onair_title onair) ->
  now_playing env g
  = (Ok (IsSong (mkSong RADIO_NAME (onair_interpreters onair) (onair_title onair)
                   (Time (dt_hour (req_now_local env)) (dt_minute (req_now_local env))
                      0 0 (Some LOCAL_TZ) (dt_fold (req_now_local env)))
                   (req_now_utc env))),
     Globals true (last_listeners g)).
Proof.
  intros Hd Hs Hno.
  unfold now_playing, try_except. rewrite Hd. cbn [bind]. rewrite Hs. cbn [bind].
  assert (Hfound :
    bind (fetch_html_static (req_static env))
      (fun soup => match soup with
                   | Some soup => try_get_start_time_from_playlist soup
                                    (onair_interpreters onair) (onair_title onair)
                   | None => Ok None
                   end) = Ok None).
  { destruct Hno as [E | soup E Ht | soup rows E Ht Hf | soup rows row ts e E Ht Hf Hc Hp];
      rewrite E; cbn [fetch_html_static try_except bind except_classes existsb
                        isinstance exn_eqb orb].
    - reflexivity.
    - unfold try_get_start_time_from_playlist. rewrite Ht. reflexivity.
    - destruct soup as [table]; cbn [playlist_table] in Ht; subst table.
      rewrite try_get_start_time_find, Hf. reflexivity.
    - destruct soup as [table]; cbn [playlist_table] in Ht; subst table.
      rewrite try_get_start_time_find, Hf. unfold on_match, try_except.
      rewrite Hc, Hp. reflexivity. }
  rewrite Hfound. reflexivity.
Qed.

(* ================================================================== *)
(** * Further properties of the listener simulator *)
(* ================================================================== *)

Lemma bands_range (min_base max_base : Z) :
  In (min_base, max_base) bands ->
  10 <= min_base /\ min_base <= max_base /\ max_base <= 180
  /\ max_change_exact min_base max_base <= 11.
Proof.
  unfold bands; simpl; intros H.
  repeat (destruct H as [H | H];
          [inversion H; subst; repeat split; try lia; vm_compute; discriminate | ]).
  contradiction.
Qed.

(** A tick always returns, and stores what it returns. *)
Lemma tick_result (env : tick_env) (g : globals) :
  let band := get_hourly_base_range (dt_hour (tick_now_local env)) in
  exists n,
    generate_listeners_stats env g
    = (Ok (mkListenerStats n (tick_now_utc env)), Globals (is_radio_playing g) n)
    /\ (if is_radio_playing g then fst band <= n <= snd band else n = 0).
Proof.
  intros band. destruct g as [playing last]. cbn [is_radio_playing].
  destruct playing.
  - pose proof (tick_playing_value env last) as Hv. cbv zeta in Hv. fold band in Hv.
    eexists; split; [exact Hv | ].
    pose proof (get_hourly_base_range_in_bands (dt_hour (tick_now_local env))) as Hin.
    fold band in Hin. destruct band as [mn mx]; cbn [fst snd] in *.
    destruct (band_facts _ _ Hin) as [Hle _].
    destruct (last =? 0); [ | apply clamp_within; exact Hle].
    pose proof (Z.mod_pos_bound (tick_random env) (mx - mn + 1)). lia.
  - exists 0. split; reflexivity.
Qed.

(** X1. A tick never fails, whatever the globals hold. The count it sends
    is the count it stores; it is 0 when the station is not playing and
    between 10 and 180 when it is, so a count of 0 tells silence apart. *)
Theorem tick_count_tells_silence (env : tick_env) (g : globals) :
  exists n,
    generate_listeners_stats env g
    = (Ok (mkListenerStats n (tick_now_utc env)), Globals (is_radio_playing g) n)
    /\ ((is_radio_playing g = false /\ n = 0)
        \/ (is_radio_playing g = true /\ 10 <= n <= 180)).
Proof.
  destruct (tick_result env g) as [n [E Hn]]. exists n. split; [exact E | ].
  pose proof (get_hourly_base_range_in_bands (dt_hour (tick_now_local env))) as Hin.
  destruct (get_hourly_base_range _) as [mn mx]; cbn [fst snd] in *.
  destruct (bands_range _ _ Hin) as (H10 & _ & H180 & _).
  destruct (is_radio_playing g); [right; split; [reflexivity | lia] | left; auto].
Qed.

Lemma rolling_state_step (c : call) (g : globals) :
  last_listeners g = 0 \/ 10 <= last_listeners g <= 180 ->
  last_listeners (snd (step c g)) = 0 \/ 10 <= last_listeners (snd (step c g)) <= 180.
Proof.
  intros Hg. destruct c as [env | env]; cbn [step].
  - pose proof (now_playing_last_listeners env g) as L.
    destruct (now_playing env g) as [r g']. cbn [snd] in *. rewrite L. exact Hg.
  - destruct (tick_result env g) as [n [E Hn]]. rewrite E. cbn [snd last_listeners].
    pose proof (get_hourly_base_range_in_bands (dt_hour (tick_now_local env))) as Hin.
    destruct (get_hourly_base_range _) as [mn mx]; cbn [fst snd] in *.
    destruct (bands_range _ _ Hin) as (H10 & _ & H180 & _).
    destruct (is_radio_playing g); [right; lia | left; exact Hn].
Qed.

(** X2. Whatever requests and ticks the process has served since it
    started, in whatever order, the rolling listener count is 0 or lies
    between 10 and 180. *)
Theorem rolling_state_invariant (calls : list call) :
  last_listeners (run calls initial_globals) = 0
  \/ 10 <= last_listeners (run calls initial_globals) <= 180.
Proof.
  assert (H : forall g, last_listeners g = 0 \/ 10 <= last_listeners g <= 180 ->
                        last_listeners (run calls g) = 0
                        \/ 10 <= last_listeners (run calls g) <= 180).
  { induction calls as [ | c rest IH]; intros g Hg; [exact Hg | ].
    cbn [run]. apply IH. apply rolling_state_step. exact Hg. }
  apply H. left. reflexivity.
Qed.

(** X3. While the station plays and the previous count lies in the band of
    the current hour, the next count differs from it by at most
    [floor((max - min) * 0.15) + 2], which is at most 11 on every band. *)
Theorem walk_step_bounded (env : tick_env) (last : Z) :
  let band := get_hourly_base_range (dt_hour (tick_now_local env)) in
  fst band <= last <= snd band ->
  exists n,
    generate_listeners_stats env (Globals true last)
    = (Ok (mkListenerStats n (tick_now_utc env)), Globals true n)
    /\ Z.abs (n - last) <= max_change_exact (fst band) (snd band)
    /\ max_change_exact (fst band) (snd band) <= 11.
Proof.
  intros band Hlast.
  pose proof (tick_playing_value env last) as Hv. cbv zeta in Hv. fold band in Hv.
  pose proof (get_hourly_base_range_in_bands (dt_hour (tick_now_local env))) as Hin.
  fold band in Hin. destruct band as [mn mx]; cbn [fst snd] in *.
  destruct (bands_range _ _ Hin) as (H10 & Hle & H180 & H11).
  pose proof (max_change_exact_pos _ _ Hle) as Hpos.
  destruct (Z.eqb_spec last 0) as [E0 | _]; [lia | ].
  eexists; split; [exact Hv | split; [ | exact H11]].
  pose proof (Z.mod_pos_bound (tick_random env) (2 * max_change_exact mn mx + 1)).
  lia.
Qed.

(* ================================================================== *)
(** * Further properties of the request *)
(* ================================================================== *)

Lemma try_get_start_time_returns (soup : BeautifulSoup) (artist title : str) :
  exists r, try_get_start_time_from_playlist soup artist title = Ok r.
Proof.
  destruct soup as [[rows | ]]; [ | exists None; reflexivity].
  rewrite try_get_start_time_find.
  destruct (find _ _) as [row | ]; [apply on_match_returns | eauto].
Qed.

Lemma time_of_ok (h m : Z) (tz : tzinfo) (t : pytime) :
  time_of h m tz = Ok t ->
  0 <= h <= 23 /\ 0 <= m <= 59 /\ t = Time h m 0 0 (Some tz) 0.
Proof.
  unfold time_of.
  destruct (Z.leb_spec 0 h), (Z.leb_spec h 23); cbn [andb]; try discriminate.
  destruct (Z.leb_spec 0 m), (Z.leb_spec m 59); cbn [andb]; try discriminate.
  intros E; inversion E. auto.
Qed.

Lemma parse_time_span_some (time_span : Tag) (t : pytime) :
  parse_time_span time_span = Ok (Some t) -> whole_minute t.
Proof.
  unfold parse_time_span, bind.
  destruct (unpack2 _) as [[hh mm] | ]; [ | discriminate].
  destruct (int_of_str hh) as [h | ]; [ | discriminate].
  destruct (int_of_str mm) as [m | ]; [ | discriminate].
  destruct (time_of h m LOCAL_TZ) as [t' | ] eqn:Et; [ | discriminate].
  intros E; inversion E; subst t'.
  destruct (time_of_ok _ _ _ _ Et) as (Hh & Hm & ->).
  unfold whole_minute; cbn. auto.
Qed.

Lemma try_get_start_time_some (soup : BeautifulSoup) (artist title : str) (t : pytime) :
  try_get_start_time_from_playlist soup artist title = Ok (Some t) ->
  whole_minute t.
Proof.
  destruct soup as [[rows | ]]; [ | discriminate].
  rewrite try_get_start_time_find.
  destruct (find _ _) as [row | ]; [ | discriminate].
  unfold on_match, try_except. destruct (span_cas row) as [ts | ]; [ | discriminate].
  destruct (parse_time_span ts) as [r | e] eqn:Ep; cbn [except_Exception].
  - intros E; inversion E; subst r. exact (parse_time_span_some _ _ Ep).
  - discriminate.
Qed.

(** When a request raises, and what it leaves behind. *)
Lemma now_playing_raise_cases (env : request_env) (g : globals) (e : exn) :
  fst (now_playing env g) = Raise e ->
  ((req_driver env = Raise e
    /\ except_classes [TimeoutException; WebDriverException] e = false)
   \/ (exists driver onair,
         req_driver env = Ok driver
         /\ scrape_onair_dynamic driver = Ok (Some onair)
         /\ req_static env = Raise e /\ e <> RequestException))
  /\ snd (now_playing env g) = g.
Proof.
  unfold now_playing, try_except.
  destruct (req_driver env) as [driver | e0] eqn:Hd; cbn [bind].
  - destruct (scrape_onair_dynamic driver) as [[onair | ] | e1] eqn:Hs; cbn [bind].
    + unfold fetch_html_static, try_except.
      destruct (req_static env) as [soup | e2] eqn:Hst; cbn [bind].
      * destruct (try_get_start_time_returns soup (onair_interpreters onair)
                    (onair_title onair)) as [r ->]. discriminate.
      * destruct e2; cbn [except_classes existsb isinstance exn_eqb orb bind fst snd];
          try discriminate;
          intros E; inversion E; subst; (split; [ | reflexivity]);
          right; exists driver, onair; repeat split; auto; discriminate.
    + discriminate.
    + destruct (scrape_onair_dynamic_raises _ _ Hs) as [-> _]. discriminate.
  - destruct (except_classes _ e0) eqn:Hc; cbn [fst snd]; [discriminate | ].
    intros E; inversion E; subst. auto.
Qed.

Lemma found_start_time_returns (static : res BeautifulSoup) (artist title : str) :
  fetch_settles static ->
  exists start_t,
    bind (fetch_html_static static)
      (fun soup => match soup with
                   | Some soup => try_get_start_time_from_playlist soup artist title
                   | None => Ok None
                   end) = Ok start_t.
Proof.
  unfold fetch_settles, fetch_html_static, try_except.
  destruct static as [soup | e]; cbn [bind].
  - intros _. apply try_get_start_time_returns.
  - intros ->. exists None. reflexivity.
Qed.

(** X6. The static document decides nothing but the start time. Take two
    requests that differ only in how the static fetch ends, each time with a
    document or a [RequestException]: they write the same globals, and they
    give the same answer, up to the start time when the answer is a song. *)
Theorem static_document_only_decides_start_time
    (ts_utc now_local : datetime) (driver : res Chrome)
    (static1 static2 : res BeautifulSoup) (g : globals) :
  fetch_settles static1 -> fetch_settles static2 ->
  same_up_to_start_time
    (fst (now_playing (RequestEnv ts_utc driver static1 now_local) g))
    (fst (now_playing (RequestEnv ts_utc driver static2 now_local) g))
  /\ snd (now_playing (RequestEnv ts_utc driver static1 now_local) g)
     = snd (now_playing (RequestEnv ts_utc driver static2 now_local) g).
Proof.
  intros H1 H2.
  unfold now_playing, try_except; cbn [req_driver req_static req_now_utc req_now_local].
  destruct driver as [d | e]; cbn [bind].
  - destruct (scrape_onair_dynamic d) as [[onair | ] | e]; cbn [bind].
    + destruct (found_start_time_returns static1 (onair_interpreters onair)
                  (onair_title onair) H1) as [t1 E1].
      destruct (found_start_time_returns static2 (onair_interpreters onair)
                  (onair_title onair) H2) as [t2 E2].
      rewrite E1, E2. cbn. auto.
    + cbn. auto.
    + destruct (except_classes _ e); cbn; auto.
  - destruct (except_classes _ e); cbn; auto.
Qed.

(** Where the start time of an answered song comes from. *)
Lemma now_playing_song_start (env : request_env) (g g' : globals) (s : Song) :
  now_playing env g = (Ok (IsSong s), g') ->
  start_time s
  = Time (dt_hour (req_now_local env)) (dt_minute (req_now_local env)) 0 0
      (Some LOCAL_TZ) (dt_fold (req_now_local env))
  \/ exists soup,
       req_static env = Ok soup
       /\ try_get_start_time_from_playlist soup (interpreters s) (title s)
          = Ok (Some (start_time s)).
Proof.
  unfold now_playing, try_except.
  destruct (req_driver env) as [d | e]; cbn [bind].
  - destruct (scrape_onair_dynamic d) as [[onair | ] | e]; cbn [bind].
    + unfold fetch_html_static, try_except.
      destruct (req_static env) as [soup | e]; cbn [bind].
      * destruct (try_get_start_time_from_playlist soup _ _) as [[t | ] | e] eqn:Et.
        -- intros E; inversion E; subst. cbn [start_time interpreters title].
           right. exists soup. auto.
        -- intros E; inversion E; subst. left. reflexivity.
        -- discriminate.
      * destruct (except_classes _ e); cbn [bind].
        -- intros E; inversion E; subst. left. reflexivity.
        -- discriminate.
    + intros E; inversion E.
    + destruct (except_classes _ e); intros E; inversion E.
  - destruct (except_classes _ e); intros E; inversion E.
Qed.

(** X7. Every song a request answers carries the station name, the
    timestamp taken on entry, and a start time with second and microsecond 0
    in the station's zone. When the local clock read by the fallback shows a
    valid hour and minute, the start time is a valid whole minute of the day,
    whichever way it was found. *)
Theorem song_is_well_formed (env : request_env) (g g' : globals) (s : Song) :
  now_playing env g = (Ok (IsSong s), g') ->
  song_radio s = RADIO_NAME
  /\ song_timestamp s = req_now_utc env
  /\ second (start_time s) = 0 /\ microsecond (start_time s) = 0
  /\ time_tzinfo (start_time s) = Some LOCAL_TZ
  /\ (0 <= dt_hour (req_now_local env) <= 23 ->
      0 <= dt_minute (req_now_local env) <= 59 ->
      whole_minute (start_time s)).
Proof.
  intros E.
  assert (Hmeta : song_radio s = RADIO_NAME /\ song_timestamp s = req_now_utc env).
  { pose proof (now_playing_ends env g) as O. rewrite E in O.
    inversion O; subst; cbn; auto. }
  destruct Hmeta as [Hr Hts].
  split; [exact Hr | split; [exact Hts | ]].
  destruct (now_playing_song_start env g g' s E) as [Hst | (soup & _ & Ht)].
  - rewrite Hst. unfold whole_minute. cbn [hour minute second microsecond time_tzinfo].
    split; [reflexivity | split; [reflexivity | split; [reflexivity | ]]].
    intros Hh Hm. auto.
  - destruct (try_get_start_time_some _ _ _ _ Ht) as (Hh & Hm & Hs & Hus & Htz).
    split; [exact Hs | split; [exact Hus | split; [exact Htz | ]]].
    intros _ _. unfold whole_minute. auto.
Qed.

Lemma run_requests_last_listeners (requests : list request_env) :
  forall g, last_listeners (run (map Request requests) g) = last_listeners g.
Proof.
  induction requests as [ | env rest IH]; intros g; [reflexivity | ].
  cbn [map run step]. pose proof (now_playing_last_listeners env g) as L.
  destruct (now_playing env g) as [r g1]. cbn [snd] in *. rewrite IH. exact L.
Qed.

Lemma run_ticks_is_radio_playing (ticks : list tick_env) :
  forall g, is_radio_playing (run (map Tick ticks) g) = is_radio_playing g.
Proof.
  induction ticks as [ | env rest IH]; intros g; [reflexivity | ].
  cbn [map run step]. pose proof (generate_listeners_stats_is_radio_playing env g) as F.
  destruct (generate_listeners_stats env g) as [r g1]. cbn [snd] in *. rewrite IH. exact F.
Qed.

(** X8. Each global has one writer, and the answer of a request does not
    read them: any number of requests leaves the rolling listener count
    as it was, any number of ticks leaves the playing flag as it was, and a
    request answers the same whatever the globals hold. *)
Theorem each_global_has_one_writer
    (requests : list request_env) (ticks : list tick_env) (g g' : globals)
    (env : request_env) :
  last_listeners (run (map Request requests) g) = last_listeners g
  /\ is_radio_playing (run (map Tick ticks) g) = is_radio_playing g
  /\ fst (now_playing env g) = fst (now_playing env g').
Proof.
  split; [apply run_requests_last_listeners | ].
  split; [apply run_ticks_is_radio_playing | ].
  unfold now_playing, try_except.
  destruct (req_driver env) as [d | e]; cbn [bind].
  - destruct (scrape_onair_dynamic d) as [[onair | ] | e]; cbn [bind].
    + destruct (bind (fetch_html_static (req_static env)) _); reflexivity.
    + reflexivity.
    + destruct (except_classes _ e); reflexivity.
  - destruct (except_classes _ e); reflexivity.
Qed.

(* ================================================================== *)
(** * Properties of [strip] *)
(* ================================================================== *)

Lemma lstrip_all_space (ws s : str) :
  all_space ws = true -> lstrip (ws ++ s) = lstrip s.
Proof.
  induction ws as [ | c ws IH]; [reflexivity | ].
  cbn [all_space forallb app lstrip]. rewrite andb_true_iff. intros [Hc Hws].
  rewrite Hc. apply IH. exact Hws.
Qed.

Lemma lstrip_app_nonspace (x : str) (c : char) (y : str) :
  isspace c = false -> lstrip (x ++ c :: y) = lstrip x ++ c :: y.
Proof.
  intros Hc. induction x as [ | a x IH]; cbn [app lstrip].
  - rewrite Hc. reflexivity.
  - destruct (isspace a); [exact IH | reflexivity].
Qed.

Lemma lstrip_head (s : str) :
  lstrip s = [] \/ exists c r, lstrip s = c :: r /\ isspace c = false.
Proof.
  induction s as [ | a s IH]; [left; reflexivity | ].
  cbn [lstrip]. destruct (isspace a) eqn:Ha; [exact IH | ].
  right. exists a, s. auto.
Qed.

Lemma lstrip_app (s t : str) :
  lstrip (s ++ t) = match lstrip s with [] => lstrip t | l => l ++ t end.
Proof.
  induction s as [ | a s IH]; [cbn; destruct (lstrip t); reflexivity | ].
  cbn [app lstrip]. destruct (isspace a); [exact IH | reflexivity].
Qed.

Lemma lstrip_idempotent (s : str) : lstrip (lstrip s) = lstrip s.
Proof.
  destruct (lstrip_head s) as [-> | (c & r & -> & Hc)]; [reflexivity | ].
  cbn [lstrip]. rewrite Hc. reflexivity.
Qed.

Lemma all_space_rev (ws : str) : all_space (rev ws) = all_space ws.
Proof.
  unfold all_space. induction ws as [ | c ws IH]; [reflexivity | ].
  cbn [rev forallb]. rewrite forallb_app, IH. cbn [forallb].
  rewrite andb_true_r. apply andb_comm.
Qed.

Lemma rstrip_all_space (s ws : str) :
  all_space ws = true -> rstrip (s ++ ws) = rstrip s.
Proof.
  intros Hws. unfold rstrip. rewrite rev_app_distr, lstrip_all_space; [reflexivity | ].
  rewrite all_space_rev. exact Hws.
Qed.

Lemma rstrip_cons_nonspace (c : char) (r : str) :
  isspace c = false -> rstrip (c :: r) = c :: rstrip r.
Proof.
  intros Hc. unfold rstrip. cbn [rev].
  rewrite (lstrip_app_nonspace (rev r) c [] Hc), rev_app_distr. reflexivity.
Qed.

Lemma rstrip_idempotent (s : str) : rstrip (rstrip s) = rstrip s.
Proof. unfold rstrip. rewrite rev_involutive, lstrip_idempotent. reflexivity. Qed.

Lemma strip_idempotent (s : str) : strip (strip s) = strip s.
Proof.
  unfold strip.
  destruct (lstrip_head s) as [-> | (c & r & -> & Hc)]; [reflexivity | ].
  rewrite (rstrip_cons_nonspace c r Hc). cbn [lstrip]. rewrite Hc.
  rewrite (rstrip_cons_nonspace c _ Hc), rstrip_idempotent. reflexivity.
Qed.

Lemma strip_surrounding (ws1 s ws2 : str) :
  all_space ws1 = true -> all_space ws2 = true ->
  strip (ws1 ++ s ++ ws2) = strip s.
Proof.
  intros H1 H2. unfold strip. rewrite (lstrip_all_space ws1 _ H1), lstrip_app.
  destruct (lstrip s) as [ | c r] eqn:E.
  - rewrite <- (app_nil_r ws2), (lstrip_all_space ws2 [] H2). reflexivity.
  - apply rstrip_all_space. exact H2.
Qed.

(** X9. The extraction does not see whitespace around the two texts it
    reads: padding either text on either side changes nothing in its
    result. And the artist and title of a candidate are trimmed: stripping
    them again changes nothing. *)
Theorem extraction_ignores_surrounding_whitespace
    (ws1 ws2 ws3 ws4 interpret_text titul_text : str) :
  all_space ws1 = true -> all_space ws2 = true ->
  all_space ws3 = true -> all_space ws4 = true ->
  scrape_onair_dynamic
    (page_showing (ws1 ++ interpret_text ++ ws2) (ws3 ++ titul_text ++ ws4))
  = scrape_onair_dynamic (page_showing interpret_text titul_text)
  /\ (forall driver onair,
        scrape_onair_dynamic driver = Ok (Some onair) ->
        strip (onair_interpreters onair) = onair_interpreters onair
        /\ strip (onair_title onair) = onair_title onair).
Proof.
  intros H1 H2 H3 H4. split.
  - pose proof (scrape_onair_dynamic_cases
                  (page_showing (ws1 ++ interpret_text ++ ws2)
                     (ws3 ++ titul_text ++ ws4))) as Cp.
    pose proof (scrape_onair_dynamic_cases (page_showing interpret_text titul_text)) as C.
    cbn [page_showing radio_profil_play span_interpret span_titul] in Cp, C.
    rewrite Cp, C.
    rewrite (strip_surrounding ws1 interpret_text ws2 H1 H2).
    rewrite (strip_surrounding ws3 titul_text ws4 H3 H4). reflexivity.
  - intros driver onair Hs.
    destruct (scrape_onair_dynamic_some _ _ Hs) as (_ & _ & _ & b & i & t & _ & _ & _ & ->).
    cbn [onair_interpreters onair_title]. split; apply strip_idempotent.
Qed.

(* ================================================================== *)
(** * Further properties of the playlist lookup *)
(* ================================================================== *)

Lemma norm_surrounding (ws1 s ws2 : str) :
  all_space ws1 = true -> all_space ws2 = true ->
  norm (ws1 ++ s ++ ws2) = norm s.
Proof.
  intros H1 H2. unfold norm. rewrite (strip_surrounding ws1 s ws2 H1 H2). reflexivity.
Qed.

Lemma split_on_no_sep (sep : char) (s cur : str) :
  forallb (fun c => negb (c =? sep)%N) s = true ->
  split_on_from sep cur s = [rev cur ++ s].
Proof.
  revert cur. induction s as [ | c s IH]; intros cur; cbn [forallb split_on_from].
  - intros _. rewrite app_nil_r. reflexivity.
  - rewrite andb_true_iff, negb_true_iff. intros [Hc Hs]. rewrite Hc.
    rewrite (IH (c :: cur) Hs). cbn [rev]. rewrite <- app_assoc. reflexivity.
Qed.

Lemma parse_time_span_no_colon (time_span : Tag) :
  no_colon (get_text_strip time_span) = true ->
  parse_time_span time_span = Raise ValueError.
Proof.
  intros H. unfold parse_time_span, split_on.
  fold colon. rewrite (split_on_no_sep colon _ [] H). reflexivity.
Qed.

Lemma parse_time_span_out_of_range (time_span : Tag) (h m : Z) (rest : str) :
  0 <= h <= 99 -> 0 <= m <= 99 -> 24 <= h \/ 60 <= m ->
  rest = [] \/ (exists tail, rest = colon :: tail) ->
  get_text_strip time_span = two_digits h ++ colon :: two_digits m ++ rest ->
  parse_time_span time_span = Raise ValueError.
Proof.
  intros Hh Hm Hbad Hrest Htext.
  destruct (two_digits_digits h Hh) as (a & b & Eh & Ha & Hb & Vh).
  destruct (two_digits_digits m Hm) as (c & d & Em & Hc & Hd & Vm).
  unfold parse_time_span. rewrite Htext, Eh, Em. cbn [app].
  fold colon. rewrite (split_hh_mm a b c d rest Ha Hb Hc Hd Hrest).
  cbn [unpack2 bind].
  rewrite (int_of_two_digits a b Ha Hb), (int_of_two_digits c d Hc Hd).
  cbn [bind]. rewrite Vh, Vm. unfold time_of.
  destruct (Z.leb_spec 0 h); [ | lia]. destruct (Z.leb_spec 0 m); [ | lia].
  destruct (Z.leb_spec h 23); cbn [andb bind]; [ | reflexivity].
  destruct (Z.leb_spec m 59); cbn [andb bind]; [lia | reflexivity].
Qed.

(* ================================================================== *)
(** * Properties of [norm] *)
(* ================================================================== *)

Lemma split_ws_from_no_space (l cur s : str) :
  no_space l = true ->
  split_ws_from cur (l ++ s) = split_ws_from (rev l ++ cur) s.
Proof.
  revert cur. induction l as [ | c l IH]; intros cur; [reflexivity | ].
  cbn [no_space forallb app split_ws_from]. rewrite andb_true_iff, negb_true_iff.
  intros [Hc Hl]. rewrite Hc. rewrite (IH (c :: cur) Hl). cbn [rev].
  rewrite <- app_assoc. reflexivity.
Qed.

Lemma split_ws_from_all_space (ws cur : str) :
  all_space ws = true -> split_ws_from cur ws = split_ws_from cur [].
Proof.
  revert cur. induction ws as [ | c ws IH]; intros cur; [reflexivity | ].
  cbn [all_space forallb split_ws_from]. rewrite andb_true_iff. intros [Hc Hws].
  rewrite Hc. destruct cur; rewrite (IH [] Hws); reflexivity.
Qed.

Lemma split_ws_from_app_all_space (s ws cur : str) :
  all_space ws = true -> split_ws_from cur (s ++ ws) = split_ws_from cur s.
Proof.
  intros Hws. revert cur. induction s as [ | c s IH]; intros cur.
  - apply split_ws_from_all_space. exact Hws.
  - cbn [app split_ws_from]. destruct (isspace c); [ | apply IH].
    destruct cur; rewrite IH; reflexivity.
Qed.

Lemma lstrip_decomp (s : str) :
  exists ws, all_space ws = true /\ s = ws ++ lstrip s.
Proof.
  induction s as [ | c s (ws & Hws & E)]; [exists []; auto | ].
  cbn [lstrip]. destruct (isspace c) eqn:Hc.
  - exists (c :: ws). cbn [all_space forallb]. rewrite Hc. split; [exact Hws | ].
    cbn [app]. f_equal. exact E.
  - exists []. auto.
Qed.

Lemma rstrip_decomp (s : str) :
  exists ws, all_space ws = true /\ s = rstrip s ++ ws.
Proof.
  destruct (lstrip_decomp (rev s)) as (ws & Hws & E).
  exists (rev ws). rewrite all_space_rev. split; [exact Hws | ].
  unfold rstrip. rewrite <- rev_app_distr, <- E, rev_involutive. reflexivity.
Qed.

Lemma split_ws_lstrip (s : str) : split_ws (lstrip s) = split_ws s.
Proof.
  unfold split_ws. induction s as [ | c s IH]; [reflexivity | ].
  cbn [lstrip split_ws_from]. destruct (isspace c) eqn:Hc; [exact IH | ].
  cbn [split_ws_from]. rewrite Hc. reflexivity.
Qed.

Lemma split_ws_rstrip (s : str) : split_ws (rstrip s) = split_ws s.
Proof.
  destruct (rstrip_decomp s) as (ws & Hws & E).
  rewrite E at 2. unfold split_ws.
  rewrite (split_ws_from_app_all_space _ ws [] Hws). reflexivity.
Qed.

Lemma split_ws_strip (s : str) : split_ws (strip s) = split_ws s.
Proof. unfold strip. rewrite split_ws_rstrip, split_ws_lstrip. reflexivity. Qed.

Lemma no_space_app (a b : str) :
  no_space (a ++ b) = no_space a && no_space b.
Proof. apply forallb_app. Qed.

Lemma no_space_rev (a : str) : no_space (rev a) = no_space a.
Proof.
  unfold no_space. induction a as [ | c a IH]; [reflexivity | ].
  cbn [rev forallb]. rewrite forallb_app, IH. cbn [forallb].
  rewrite andb_true_r. apply andb_comm.
Qed.

(** The pieces [split] returns are words. *)
Lemma split_ws_from_words (s cur : str) :
  no_space cur = true -> Forall is_word (split_ws_from cur s).
Proof.
  revert cur. induction s as [ | c s IH]; intros cur Hcur; cbn [split_ws_from].
  - destruct cur as [ | a cur]; [constructor | ].
    constructor; [ | constructor]. split.
    + cbn [rev]. intros E. apply app_eq_nil in E. destruct E; discriminate.
    + rewrite no_space_rev. exact Hcur.
  - destruct (isspace c) eqn:Hc.
    + destruct cur as [ | a cur]; [apply IH; reflexivity | ].
      constructor; [ | apply IH; reflexivity]. split.
      * cbn [rev]. intros E. apply app_eq_nil in E. destruct E; discriminate.
      * rewrite no_space_rev. exact Hcur.
    + apply IH. cbn [no_space forallb]. rewrite Hc. exact Hcur.
Qed.

(** Joining words with one space and splitting again gives the words. *)
Lemma split_ws_join (words : list str) :
  Forall is_word words -> split_ws (join (lit " ") words) = words.
Proof.
  unfold split_ws. induction 1 as [ | w rest [Hne Hns] Hrest IH]; [reflexivity | ].
  destruct rest as [ | w' rest].
  - cbn [join]. rewrite <- (app_nil_r w) at 1.
    rewrite (split_ws_from_no_space w [] [] Hns). cbn [split_ws_from].
    rewrite app_nil_r. destruct (rev w) eqn:E.
    + apply (f_equal (@rev char)) in E. rewrite rev_involutive in E. contradiction.
    + rewrite <- E, rev_involutive. reflexivity.
  - change (join (lit " ") (w :: w' :: rest))
      with (w ++ lit " " ++ join (lit " ") (w' :: rest)).
    rewrite (split_ws_from_no_space w [] _ Hns). rewrite app_nil_r.
    remember (join (lit " ") (w' :: rest)) as joined eqn:Ej.
    cbn [lit app split_ws_from]. change (isspace (N_of_ascii " ")) with true. cbv iota.
    destruct (rev w) eqn:E.
    + apply (f_equal (@rev char)) in E. rewrite rev_involutive in E. contradiction.
    + rewrite <- E, rev_involutive, IH. reflexivity.
Qed.

Section CaseFolding.

Variable fold_char : char -> str.
Hypothesis casefold_by_char : folds_by_char casefold fold_char.

Lemma fold_word (w : str) : is_word w -> is_word (flat_map fold_char w).
Proof.
  destruct casefold_by_char as (_ & _ & Hword).
  intros [Hne Hns]. destruct w as [ | c w]; [contradiction | clear Hne].
  cbn [no_space forallb] in Hns. rewrite andb_true_iff, negb_true_iff in Hns.
  destruct Hns as [Hc Hw]. destruct (Hword c Hc) as [Hne Hns]. split.
  - cbn [flat_map]. intros E. apply app_eq_nil in E. destruct E; contradiction.
  - cbn [flat_map]. rewrite no_space_app, Hns. cbn [andb].
    induction w as [ | d w IH]; [reflexivity | ].
    cbn [forallb] in Hw. rewrite andb_true_iff, negb_true_iff in Hw.
    destruct Hw as [Hd Hw]. cbn [flat_map]. rewrite no_space_app.
    rewrite (proj2 (Hword d Hd)), (IH Hw). reflexivity.
Qed.

Lemma split_ws_from_fold (s cur : str) :
  no_space cur = true ->
  split_ws_from (rev (flat_map fold_char (rev cur))) (flat_map fold_char s)
  = map (flat_map fold_char) (split_ws_from cur s).
Proof.
  destruct casefold_by_char as (_ & Hspace & Hword).
  revert cur. induction s as [ | c s IH]; intros cur Hcur.
  - cbn [flat_map split_ws_from]. destruct cur as [ | a cur]; [reflexivity | ].
    rewrite rev_involutive.
    assert (W : is_word (flat_map fold_char (rev (a :: cur)))).
    { apply fold_word. split.
      - cbn [rev]. intros E. apply app_eq_nil in E. destruct E; discriminate.
      - rewrite no_space_rev. exact Hcur. }
    destruct (rev (flat_map fold_char (rev (a :: cur)))) eqn:E; [ | reflexivity].
    apply (f_equal (@rev char)) in E. rewrite rev_involutive in E.
    destruct W as [Hne _]. contradiction.
  - cbn [flat_map split_ws_from]. destruct (isspace c) eqn:Hc.
    + rewrite (Hspace c Hc). cbn [app split_ws_from]. rewrite Hc.
      destruct cur as [ | a cur].
      * cbn [rev flat_map]. exact (IH [] eq_refl).
      * assert (W : is_word (flat_map fold_char (rev (a :: cur)))).
        { apply fold_word. split.
          - cbn [rev]. intros E. apply app_eq_nil in E. destruct E; discriminate.
          - rewrite no_space_rev. exact Hcur. }
        destruct (rev (flat_map fold_char (rev (a :: cur)))) eqn:E.
        -- apply (f_equal (@rev char)) in E. rewrite rev_involutive in E.
           destruct W as [Hne _]. contradiction.
        -- rewrite <- E, rev_involutive. cbn [map]. f_equal. exact (IH [] eq_refl).
    + destruct (Hword c Hc) as [_ Hns].
      rewrite (split_ws_from_no_space (fold_char c) _ _ Hns).
      rewrite <- rev_app_distr.
      replace (fold_char c) with (flat_map fold_char [c])
        by (cbn [flat_map]; apply app_nil_r).
      rewrite <- flat_map_app.
      change (rev cur ++ [c]) with (rev (c :: cur)).
      apply IH. cbn [no_space forallb]. rewrite Hc. exact Hcur.
Qed.

Lemma split_ws_casefold (s : str) :
  split_ws (casefold s) = map casefold (split_ws s).
Proof.
  pose proof (split_ws_from_fold s [] eq_refl) as H.
  cbn [rev flat_map] in H. unfold split_ws.
  destruct casefold_by_char as (Hfold & _).
  rewrite Hfold, H. apply map_ext. intros w. symmetry. apply Hfold.
Qed.

Lemma norm_by_words (s : str) :
  norm s = join (lit " ") (map casefold (split_ws s)).
Proof. unfold norm. rewrite split_ws_casefold, split_ws_strip. reflexivity. Qed.

(** X12. When the case folding works character by character and keeps
    whitespace and other characters apart, [norm] reads a text word by
    word: it is the folded words joined by single spaces. So two texts
    with the same words, however they are spaced, are the same to the
    lookup. *)
Theorem norm_reads_words :
  (forall s, norm s = join (lit " ") (map casefold (split_ws s)))
  /\ (forall soup artist artist' title title',
        split_ws artist = split_ws artist' ->
        split_ws title = split_ws title' ->
        try_get_start_time_from_playlist soup artist title
        = try_get_start_time_from_playlist soup artist' title').
Proof.
  split; [exact norm_by_words | ].
  intros soup artist artist' title title' Ha Ht.
  unfold try_get_start_time_from_playlist.
  rewrite (norm_by_words artist), (norm_by_words title), Ha, Ht.
  rewrite <- (norm_by_words artist'), <- (norm_by_words title'). reflexivity.
Qed.

Hypothesis fold_char_idempotent :
  forall c, flat_map fold_char (fold_char c) = fold_char c.

Lemma fold_idempotent (s : str) :
  flat_map fold_char (flat_map fold_char s) = flat_map fold_char s.
Proof.
  induction s as [ | c s IH]; [reflexivity | ].
  cbn [flat_map]. rewrite flat_map_app, fold_char_idempotent, IH. reflexivity.
Qed.

(** X13. When moreover folding a folded character changes nothing, [norm]
    is idempotent: a text already normalised is left as it is. *)
Theorem norm_idempotent (s : str) : norm (norm s) = norm s.
Proof.
  rewrite (norm_by_words (norm s)), (norm_by_words s).
  assert (W : Forall is_word (map casefold (split_ws s))).
  { pose proof (split_ws_from_words s [] eq_refl) as Hw. fold (split_ws s) in Hw.
    destruct casefold_by_char as (Hfold & _).
    induction Hw as [ | w ws Hw _ IH]; [constructor | ].
    cbn [map]. constructor; [rewrite Hfold; apply fold_word; exact Hw | exact IH]. }
  rewrite (split_ws_join _ W), map_map. f_equal.
  apply map_ext. intros w. destruct casefold_by_char as (Hfold & _).
  rewrite !Hfold. apply fold_idempotent.
Qed.

End CaseFolding.

(* ================================================================== *)
(** * Properties of the listeners endpoint *)
(* ================================================================== *)

Lemma tick_plausible (env : tick_env) (g : globals) :
  exists stats,
    generate_listeners_stats env g
    = (Ok stats, Globals (is_radio_playing g) (listeners stats))
    /\ (if is_radio_playing g then 10 <= listeners stats <= 180
        else listeners stats = 0).
Proof.
  destruct (tick_result env g) as [n [E Hn]].
  exists (mkListenerStats n (tick_now_utc env)). split; [exact E | ].
  pose proof (get_hourly_base_range_in_bands (dt_hour (tick_now_local env))) as Hin.
  destruct (get_hourly_base_range _) as [mn mx]; cbn [fst snd listeners] in *.
  destruct (bands_range _ _ Hin) as (H10 & _ & H180 & _).
  destruct (is_radio_playing g); [lia | exact Hn].
Qed.

(** X14. A connection delivers until a send fails. When the sends of the
    first rounds return and the send of the next one raises, the client
    has received exactly the messages of those first rounds, the handler
    leaves the loop without raising (through the handler of
    [WebSocketDisconnect] or of [Exception]), and the rounds after it never
    run. The tick of the failed round has run all the same: the globals
    hold its count, which no client saw. *)
Theorem connection_delivers_until_send_fails
    (sent : list round) (failing : round) (later : list round) (g : globals) :
  Forall delivered sent ->
  round_send failing <> Done ->
  let '(messages, c, g1) := websocket_endpoint_loop sent g in
  c = Streaming
  /\ List.length messages = List.length sent
  /\ websocket_endpoint Done (sent ++ failing :: later) g
     = (messages, closed_by (round_send failing),
        snd (generate_listeners_stats (round_tick failing) g1))
  /\ closed_by (round_send failing) <> Streaming.
Proof.
  intros Hsent Hfail. cbn [websocket_endpoint]. revert g.
  induction Hsent as [ | r sent Hr _ IH]; intros g.
  - cbn [websocket_endpoint_loop app List.length].
    destruct (tick_plausible (round_tick failing) g) as [stats [E _]].
    rewrite E. cbn [snd].
    destruct (round_send failing); [contradiction | | ]; cbn [closed_by];
      repeat split; discriminate.
  - cbn [websocket_endpoint_loop app].
    destruct (tick_plausible (round_tick r) g) as [stats [E _]].
    rewrite E. unfold delivered in Hr. rewrite Hr.
    specialize (IH (run (round_meanwhile r)
                      (Globals (is_radio_playing g) (listeners stats)))).
    destruct (websocket_endpoint_loop sent _) as [[messages c] g1].
    destruct IH as (Hc & Hlen & Hrun & Hclosed).
    rewrite Hrun. cbn [List.length]. repeat split; auto.
Qed.

(** X15. Whatever the rounds of a connection, whatever the other handlers
    do in between and whatever the globals held when it opened, every count
    it delivers is 0 or lies between 10 and 180. *)
Theorem delivered_counts_are_plausible
    (accept : socket_outcome) (rounds : list round) (g : globals) :
  Forall plausible_count (fst (fst (websocket_endpoint accept rounds g))).
Proof.
  destruct accept; cbn [websocket_endpoint fst]; try constructor.
  revert g. induction rounds as [ | r rest IH]; intros g; [constructor | ].
  cbn [websocket_endpoint_loop].
  destruct (tick_plausible (round_tick r) g) as [stats [E Hn]]. rewrite E.
  destruct (round_send r); cbn [fst]; try constructor.
  specialize (IH (run (round_meanwhile r)
                    (Globals (is_radio_playing g) (listeners stats)))).
  destruct (websocket_endpoint_loop rest _) as [[sent c] g']. cbn [fst] in *.
  constructor; [ | exact IH].
  unfold plausible_count. destruct (is_radio_playing g); [right | left]; exact Hn.
Qed.

(** X16. While no request is served, a connection tells a silent station
    from a playing one in every message: if the other handlers serve ticks
    only, the connection leaves the playing flag as it found it, and it
    delivers only zeros when the flag is false and only counts between 10
    and 180 when it is true. *)
Theorem connection_without_requests
    (accept : socket_outcome) (rounds : list round) (g : globals) :
  Forall only_ticks_meanwhile rounds ->
  let '(messages, c, g') := websocket_endpoint accept rounds g in
  is_radio_playing g' = is_radio_playing g
  /\ Forall (fun stats =>
               if is_radio_playing g then 10 <= listeners stats <= 180
               else listeners stats = 0) messages.
Proof.
  intros Hrounds. destruct accept; cbn [websocket_endpoint]; auto.
  revert g. induction Hrounds as [ | r rest [ticks Hr] _ IH]; intros g.
  - cbn [websocket_endpoint_loop]. auto.
  - cbn [websocket_endpoint_loop].
    destruct (tick_plausible (round_tick r) g) as [stats [E Hn]]. rewrite E.
    destruct (round_send r); auto.
    specialize (IH (run (round_meanwhile r)
                      (Globals (is_radio_playing g) (listeners stats)))).
    rewrite Hr in IH |- *. rewrite run_ticks_is_radio_playing in IH.
    cbn [is_radio_playing] in IH.
    destruct (websocket_endpoint_loop rest _) as [[sent c] g'].
    destruct IH as [Hflag Hsent]. split; [exact Hflag | ].
    constructor; [exact Hn | exact Hsent].
Qed.

(* ================================================================== *)
(** * The hourly table *)
(* ================================================================== *)

(** X17. The band (50, 80) at the end of the table is returned for an
    hour outside 0..23 and for no other: every hour a clock can show has a
    band of its own. *)
Theorem default_band_only_off_the_clock (h : Z) :
  get_hourly_base_range h = (50, 80) <-> h < 0 \/ 23 < h.
Proof.
  unfold get_hourly_base_range.
  repeat match goal with
         | |- context [?a <=? ?b] => destruct (Z.leb_spec a b)
         | |- context [?a =? ?b] => destruct (Z.eqb_spec a b)
         end; cbn [andb];
    (split; [intros E; first [discriminate E | lia] | intros [Hout | Hout]; first [reflexivity | lia]]).
Qed.

(* ================================================================== *)
(** * The request with its [finally] clause *)
(* ================================================================== *)

(** When [quit] returns or is not reached, the clause changes nothing. *)
Lemma now_playing_with_quit_returned
    (cleanup : cleanup_env) (env : request_env) (g : globals) :
  finally_quit cleanup env = Ok tt ->
  now_playing_with_quit cleanup env g = now_playing env g.
Proof.
  intros H. unfold now_playing_with_quit, now_playing. rewrite H. reflexivity.
Qed.


(** With a driver that raises Selenium errors only and a static fetch that
    ends in a document or a [RequestException], the request with a working
    cleanup answers, and the flag tells whether the answer is a song. *)
Lemma now_playing_returns_flag (env : request_env) (g : globals) :
  selenium_errors_only (req_driver env) -> fetch_settles (req_static env) ->
  exists response,
    now_playing env g = (Ok response, Globals (is_song response) (last_listeners g)).
Proof.
  intros Hdrv Hst. pose proof (now_playing_ends env g) as O.
  destruct (now_playing env g) as [[response | e] g'] eqn:E.
  - exists response. inversion O; subst; reflexivity.
  - exfalso.
    assert (Hr : fst (now_playing env g) = Raise e) by (rewrite E; reflexivity).
    destruct (now_playing_raise_cases env g e Hr)
      as [[[Hd Hc] | (d & o & _ & _ & Hs & Hne)] _].
    + unfold selenium_errors_only in Hdrv. rewrite Hd in Hdrv.
      cbn [except_classes existsb] in Hc. rewrite Hdrv, orb_true_r in Hc. discriminate.
    + unfold fetch_settles in Hst. rewrite Hs in Hst. contradiction.
Qed.



(** X5. With a driver that raises Selenium errors only, a static fetch that
    ends in a document or a [RequestException], and a [driver.quit()] that
    returns, a request always answers: it never raises. *)
Theorem now_playing_answers
    (cleanup : cleanup_env) (env : request_env) (g : globals) :
  selenium_errors_only (req_driver env) ->
  fetch_settles (req_static env) ->
  finally_quit cleanup env = Ok tt ->
  exists response, fst (now_playing_with_quit cleanup env g) = Ok response.
Proof.
  intros Hdrv Hst Hq.
  rewrite (now_playing_with_quit_returned cleanup env g Hq).
  destruct (now_playing_returns_flag env g Hdrv Hst) as [response E].
  exists response. rewrite E. reflexivity.
Qed.

(* ================================================================== *)
(** * The matching rule of the lookup, spelled out *)
(* ================================================================== *)

(** C5. The lookup reads the first 5 rows of the table and no other. A row
    matches only when it has its three spans and its artist and its title
    are equal to the ones looked up, each side trimmed ([strip]),
    case-folded ([casefold]) and with its whitespace collapsed ([split],
    joined by single spaces): equality of the whole texts, nothing
    partial. The lookup answers on the first of the 5 rows that matches, and
    [None] when none does. On the matched row it reads the time text, and a
    text [HH:MM], with or without a [:SS...] tail, gives that hour and
    minute in the station's time zone. *)
Theorem lookup_first_match_of_top5 (rows : list Row) (artist title : str) :
  let normalized (s : str) := join (lit " ") (split_ws (casefold (strip s))) in
  let matches (row : Row) :=
    exists time_span artist_span title_span,
      span_cas row = Some time_span
      /\ row_interpret row = Some artist_span
      /\ row_titul row = Some title_span
      /\ normalized (get_text artist_span) = normalized artist
      /\ normalized (get_text title_span) = normalized title in
  try_get_start_time_from_playlist (mkSoup (Some rows)) artist title
  = try_get_start_time_from_playlist (mkSoup (Some (firstn 5 rows))) artist title
  /\ (forall before row after,
        firstn 5 rows = before ++ row :: after ->
        (forall earlier, In earlier before -> ~ matches earlier) ->
        matches row ->
        try_get_start_time_from_playlist (mkSoup (Some rows)) artist title
        = on_match row)
  /\ ((forall row, In row (firstn 5 rows) -> ~ matches row) ->
      try_get_start_time_from_playlist (mkSoup (Some rows)) artist title = Ok None)
  /\ (forall row time_span h m rest,
        span_cas row = Some time_span ->
        0 <= h <= 23 -> 0 <= m <= 59 ->
        rest = [] \/ (exists tail, rest = colon :: tail) ->
        get_text_strip time_span = two_digits h ++ colon :: two_digits m ++ rest ->
        on_match row = Ok (Some (Time h m 0 0 (Some LOCAL_TZ) 0))).
Proof.
  intros normalized matches.
  assert (Hiff : forall row, row_matches artist title row = true <-> matches row)
    by (intros row; apply row_matches_iff).
  assert (Hnone : forall l, (forall row, In row l -> ~ matches row) ->
                            find (row_matches artist title) l = None).
  { intros l Hl. apply find_none_forall. intros row Hin.
    destruct (row_matches artist title row) eqn:E; [ | reflexivity].
    exfalso. exact (Hl row Hin (proj1 (Hiff row) E)). }
  split; [ | split; [ | split]].
  - rewrite !try_get_start_time_find, firstn_firstn. reflexivity.
  - intros before row after Hsplit Hbefore Hrow.
    rewrite try_get_start_time_find, Hsplit, (find_app_none _ _ _ (Hnone _ Hbefore)).
    cbn [find]. rewrite (proj2 (Hiff row) Hrow). reflexivity.
  - intros Hall. rewrite try_get_start_time_find, (Hnone _ Hall). reflexivity.
  - intros row time_span h m rest Ec Hh Hm Hrest Htext.
    unfold on_match. rewrite Ec.
    rewrite (parse_time_span_hh_mm time_span h m rest Hh Hm Hrest Htext).
    reflexivity.
Qed.

(* ================================================================== *)
(** * Padding and unreadable times, anywhere in the table *)
(* ================================================================== *)

Lemma norm_padded (text padded : str) :
  padded_text text padded -> norm padded = norm text.
Proof.
  intros (ws1 & ws2 & H1 & H2 & ->). apply norm_surrounding; assumption.
Qed.

Lemma scan_rows_padded (n_artist n_title : str) (rows rows' : list Row) :
  Forall2 padded_row rows rows' ->
  scan_rows n_artist n_title rows' = scan_rows n_artist n_title rows.
Proof.
  induction 1 as [ | row row' rows rows' (Hc & Ha & Ht) _ IH]; [reflexivity | ].
  cbn [scan_rows]. rewrite <- Hc, IH.
  destruct (span_cas row) as [time_span | ]; [ | reflexivity].
  unfold padded_span in Ha, Ht.
  destruct (row_interpret row) as [a | ], (row_interpret row') as [a' | ];
    try contradiction; [ | reflexivity].
  destruct (row_titul row) as [t | ], (row_titul row') as [t' | ];
    try contradiction; [ | reflexivity].
  rewrite (norm_padded _ _ Ha), (norm_padded _ _ Ht). reflexivity.
Qed.

Lemma padded_rows_firstn (n : nat) (rows rows' : list Row) :
  Forall2 padded_row rows rows' ->
  Forall2 padded_row (firstn n rows) (firstn n rows').
Proof.
  intros H. revert n. induction H as [ | r r' l l' Hr _ IH]; intros n.
  - rewrite !firstn_nil. constructor.
  - destruct n; cbn [firstn]; constructor; [exact Hr | apply IH].
Qed.

(** X10. The lookup does not see whitespace around the texts it compares.
    Pad the artist and the title looked up, and pad the artist and the
    title text of any rows of the table, wherever they stand and however
    their text is cut into strings: the lookup answers the same. *)
Theorem lookup_ignores_surrounding_whitespace
    (soup soup' : BeautifulSoup) (artist artist' title title' : str) :
  padded_text artist artist' -> padded_text title title' ->
  padded_soup soup soup' ->
  try_get_start_time_from_playlist soup' artist' title'
  = try_get_start_time_from_playlist soup artist title.
Proof.
  intros Ha Ht Hs. unfold try_get_start_time_from_playlist.
  rewrite (norm_padded _ _ Ha), (norm_padded _ _ Ht).
  unfold padded_soup in Hs.
  destruct (playlist_table soup) as [rows | ], (playlist_table soup') as [rows' | ];
    try contradiction; [ | reflexivity].
  destruct Hs as [ | row row' rows rows' Hr Hrest]; [reflexivity | ].
  apply scan_rows_padded. apply padded_rows_firstn. constructor; assumption.
Qed.

(** X11. The first matching row of the table gives no start time when its
    time text, stripped, has no colon at all, or reads [HH:MM] (with or
    without a [:SS...] tail) with an hour above 23 or a minute above 59:
    wherever that row stands among the first 5, the lookup answers [None]
    without looking at the rows below it. *)
Theorem unreadable_time_gives_none
    (before : list Row) (row : Row) (after : list Row) (artist title : str)
    (time_span : Tag) :
  (List.length before < 5)%nat ->
  find (row_matches artist title) before = None ->
  row_matches artist title row = true ->
  span_cas row = Some time_span ->
  (no_colon (get_text_strip time_span) = true
   \/ exists h m tail,
        0 <= h <= 99 /\ 0 <= m <= 99 /\ (24 <= h \/ 60 <= m)
        /\ (tail = [] \/ exists more, tail = colon :: more)
        /\ get_text_strip time_span = two_digits h ++ colon :: two_digits m ++ tail) ->
  try_get_start_time_from_playlist (mkSoup (Some (before ++ row :: after)))
    artist title
  = Ok None.
Proof.
  intros Hlen Hbefore Hmatch Hcas Hbad.
  rewrite try_get_start_time_find.
  rewrite firstn_app, (firstn_all2 (n := 5) before) by lia.
  rewrite (find_app_none _ _ _ Hbefore).
  destruct (5 - List.length before)%nat as [ | k] eqn:Hk; [lia | ].
  cbn [firstn find]. rewrite Hmatch.
  unfold on_match, try_except. rewrite Hcas.
  assert (Hp : parse_time_span time_span = Raise ValueError).
  { destruct Hbad as [Hn | (h & m & tail & Hh & Hm & Hr & Ht & Htext)].
    - apply parse_time_span_no_colon. exact Hn.
    - exact (parse_time_span_out_of_range time_span h m tail Hh Hm Hr Ht Htext). }
  rewrite Hp. reflexivity.
Qed.

End Program.

(* ================================================================== *)
(** * The statements on concrete inputs *)
(* ================================================================== *)

(** Scenario A of the specification: the top row matches up to case and
    spacing and carries 14:05. *)
Example scenario_top_row_matches :
  now_playing ascii_lower ascii_lower no_unicode_decimal
    (request_of (Ok page_artist_x) (Ok (mkSoup (Some playlist_top_row))))
    (Globals false 0)
  = (Ok (song_x_y (Time 14 5 0 0 (Some LOCAL_TZ) 0)), Globals true 0).
Proof. vm_compute. reflexivity. Qed.

(** Scenario B: the title is a silence phrase, here in upper case. *)
Example scenario_silence_phrase :
  now_playing ascii_lower ascii_lower no_unicode_decimal
    (request_of
       (Ok (mkChrome (Some (mkWebElement (Some (lit "Beta"))
                              (Some (lit "JE DO" ++ [0x10D%N]
                                       ++ lit "ASNE  NEDOSTUPN" ++ [0xE1%N]))))))
       (Ok (mkSoup (Some playlist_top_row))))
    (Globals true 75)
  = (Ok (nothing_is_playing example_utc), Globals false 75).
Proof. vm_compute. reflexivity. Qed.

(** Scenario D: the render fails, and the next tick answers 0. *)
Example scenario_render_times_out :
  let '(response, g) :=
    now_playing ascii_lower ascii_lower no_unicode_decimal
      (request_of (Raise TimeoutException) (Ok (mkSoup (Some playlist_top_row))))
      (Globals true 75) in
  response = Ok (upstream_unavailable example_utc)
  /\ generate_listeners_stats (tick_of 12345) g
     = (Ok (mkListenerStats 0 example_utc), Globals false 0).
Proof. vm_compute. split; reflexivity. Qed.

(** C4 on a run: a timeout while 75 listeners are counted, a request that
    finds nothing playing, a tick, two more quiet calls, the track again, a
    tick at 14 h. *)
Lemma silence_resets_then_resamples_example :
  generate_listeners_stats (tick_of 12345) (Globals false 75)
  = (Ok (mkListenerStats 0 example_utc), Globals false 0)
  /\ exists n,
       70 <= n <= 110
       /\ generate_listeners_stats (tick_of 12345) (Globals true 0)
          = (Ok (mkListenerStats n example_utc), Globals true n).
Proof.
  destruct (silence_resets_then_resamples ascii_lower ascii_lower no_unicode_decimal
              (Globals true 75) (Globals false 75) (Globals true 0)
              (request_of (Ok page_no_block) (Raise RequestException))
              (request_of (Ok page_artist_x) (Raise RequestException))
              (mkSilence RADIO_NAME false (lit "Upstream page unavailable.") example_utc)
              (mkSong RADIO_NAME (lit "Artist X") (lit "Song Y")
                 (Time 14 7 0 0 (Some LOCAL_TZ) 0) example_utc)
              (tick_of 12345) (tick_of 12345)
              [Request (request_of (Ok (mkChrome (Some (mkWebElement None None))))
                          (Raise RequestException))]
              [Tick (tick_of 7);
               Request (request_of (Raise WebDriverException) (Raise RequestException))])
    as (_ & Ht & _ & n & _ & Hn & Hs).
  - reflexivity.
  - vm_compute. reflexivity.
  - vm_compute. auto.
  - vm_compute. auto.
  - vm_compute. reflexivity.
  - split; [exact Ht | ]. exists n. split; [exact Hn | exact Hs].
Defined.

(** C6 on a playlist whose first matching row reads "soon": the later row
    with a readable time is not looked at. *)
Lemma lookup_never_raises_example :
  try_get_start_time_from_playlist ascii_lower no_unicode_decimal
    (mkSoup (Some playlist_bad_time)) (lit "Artist X") (lit "Song Y")
  = Ok None.
Proof.
  destruct (lookup_never_raises ascii_lower no_unicode_decimal
              (mkSoup (Some playlist_bad_time)) (lit "Artist X") (lit "Song Y"))
    as (_ & _ & _ & _ & Hbad).
  apply (Hbad [row_of "14:09" "Artist Z" "Song W"]
           (row_of "soon" "Artist X" "Song Y")
           [row_of "14:05" "Artist X" "Song Y"] [lit "soon"] ValueError).
  - reflexivity.
  - simpl. lia.
  - vm_compute. reflexivity.
  - vm_compute. reflexivity.
  - reflexivity.
  - vm_compute. reflexivity.
Defined.

(** C7, and scenario C of the specification: the static fetch fails at
    14:07:42.123456 local time. *)
Lemma fallback_start_time_example :
  now_playing ascii_lower ascii_lower no_unicode_decimal
    (request_of (Ok page_artist_x) (Raise RequestException)) (Globals false 0)
  = (Ok (song_x_y (Time 14 7 0 0 (Some LOCAL_TZ) 0)), Globals true 0).
Proof.
  apply (fallback_start_time ascii_lower ascii_lower no_unicode_decimal
           (request_of (Ok page_artist_x) (Raise RequestException))
           (Globals false 0) page_artist_x (mkOnAir (lit "Artist X") (lit "Song Y"))).
  - reflexivity.
  - vm_compute. reflexivity.
  - apply static_fetch_failed. reflexivity.
Defined.

(** C8 on the page showing the track. *)
Lemma extractor_none_iff_example :
  scrape_onair_dynamic ascii_lower page_artist_x
  = Ok (Some (mkOnAir (lit "Artist X") (lit "Song Y")))
  /\ lit "Artist X" <> [] /\ lit "Song Y" <> [].
Proof.
  destruct (extractor_none_iff ascii_lower ascii_lower no_unicode_decimal
              (lit "Artist X") (lit "Song Y"))
    as (Hnone & [Hn | Hsome] & Hsong).
  - exfalso. apply Hnone in Hn. vm_compute in Hn.
    destruct Hn as [[Hn | [Hn | []]] | [Hn | Hn]]; discriminate Hn.
  - split; [exact Hsome | ].
    destruct (Hsong (request_of (Ok page_artist_x) (Raise RequestException))
                (Globals false 0)
                (mkSong RADIO_NAME (lit "Artist X") (lit "Song Y")
                   (Time 14 7 0 0 (Some LOCAL_TZ) 0) example_utc)
                (Globals true 0) eq_refl) as (Ha & Ht & _).
    split; [exact Ha | exact Ht].
Defined.

(** C9 as the claim has it fails: when the block never shows, the
    extraction does not return [None] but raises the timeout, and the
    request answers "Upstream page unavailable.", not
    "Nothing is playing right now.". *)
Lemma region_absent_answers_upstream_unavailable :
  scrape_onair_dynamic ascii_lower page_no_block = Raise TimeoutException
  /\ scrape_onair_dynamic ascii_lower page_no_block <> Ok None
  /\ fst (now_playing ascii_lower ascii_lower no_unicode_decimal
            (request_of (Ok page_no_block) (Ok (mkSoup (Some playlist_top_row))))
            initial_globals)
     = Ok (upstream_unavailable example_utc)
  /\ upstream_unavailable example_utc <> nothing_is_playing example_utc.
Proof.
  split; [reflexivity | ].
  split; [discriminate | ].
  split; [reflexivity | ].
  discriminate.
Qed.

(** C10 on five rows without a time span followed by the track. *)
Lemma malformed_row_consumes_slot_example :
  try_get_start_time_from_playlist ascii_lower no_unicode_decimal
    (mkSoup (Some playlist_sixth_row)) (lit "Artist X") (lit "Song Y")
  = Ok None
  /\ try_get_start_time_from_playlist ascii_lower no_unicode_decimal
       (mkSoup (Some (row_without_time :: playlist_top_row)))
       (lit "Artist X") (lit "Song Y")
     = Ok (Some (Time 14 5 0 0 (Some LOCAL_TZ) 0)).
Proof.
  destruct (malformed_row_consumes_slot ascii_lower no_unicode_decimal
              (lit "Artist X") (lit "Song Y")) as (Hskip & Hfull).
  split.
  - apply (Hfull [row_without_time; row_without_time; row_without_time;
                  row_without_time; row_without_time]
             [row_of "14:05" "Artist X" "Song Y"]); [reflexivity | ].
    intros row Hin. left. simpl in Hin.
    repeat (destruct Hin as [<- | Hin]; [left; reflexivity | ]). contradiction.
  - rewrite (Hskip row_without_time playlist_top_row (or_introl eq_refl)).
    vm_compute. reflexivity.
Defined.

(* ================================================================== *)
(** * The further statements on concrete inputs *)
(* ================================================================== *)

Lemma isspace_not_upper (c : char) :
  isspace c = true -> ((0x41 <=? c) && (c <=? 0x5A))%N = false.
Proof.
  unfold isspace. intros H.
  repeat rewrite orb_true_iff in H. repeat rewrite andb_true_iff in H.
  rewrite ?N.leb_le, ?N.eqb_eq in H.
  apply andb_false_iff. rewrite !N.leb_gt. lia.
Qed.

Lemma isspace_lower_case (c : char) :
  (0x41 <= c <= 0x5A)%N -> isspace (c + 0x20)%N = false.
Proof.
  intros Hc. destruct (isspace (c + 0x20)%N) eqn:E; [exfalso | reflexivity].
  unfold isspace in E.
  repeat rewrite orb_true_iff in E. repeat rewrite andb_true_iff in E.
  rewrite ?N.leb_le, ?N.eqb_eq in E. lia.
Qed.

Lemma ascii_lower_by_char (s : str) : ascii_lower s = flat_map ascii_fold_char s.
Proof.
  unfold ascii_lower. induction s as [ | c s IH]; [reflexivity | ].
  cbn [map flat_map ascii_fold_char app]. rewrite IH. reflexivity.
Qed.

Lemma ascii_lower_folds_by_char : folds_by_char ascii_lower ascii_fold_char.
Proof.
  split; [exact ascii_lower_by_char | split].
  - intros c Hc. unfold ascii_fold_char. rewrite (isspace_not_upper c Hc). reflexivity.
  - intros c Hc. unfold ascii_fold_char, is_word. split; [discriminate | ].
    cbn [no_space forallb]. rewrite andb_true_r, negb_true_iff.
    destruct (N.leb_spec 0x41 c), (N.leb_spec c 0x5A); cbn [andb]; try exact Hc.
    apply isspace_lower_case. lia.
Qed.

Lemma ascii_fold_char_idempotent (c : char) :
  flat_map ascii_fold_char (ascii_fold_char c) = ascii_fold_char c.
Proof.
  unfold ascii_fold_char. cbn [flat_map app]. f_equal.
  destruct ((0x41 <=? c) && (c <=? 0x5A))%N eqn:E; [ | rewrite E; reflexivity].
  apply andb_true_iff in E. rewrite !N.leb_le in E.
  assert (((0x41 <=? c + 0x20) && (c + 0x20 <=? 0x5A))%N = false) as ->
    by (apply andb_false_iff; rewrite !N.leb_gt; lia).
  reflexivity.
Qed.

(** X3 at 14 h, from 75 listeners: the band is 70..110 and the step at
    most 8. *)
Lemma walk_step_bounded_example :
  exists n,
    generate_listeners_stats (tick_of 12345) (Globals true 75)
    = (Ok (mkListenerStats n example_utc), Globals true n)
    /\ Z.abs (n - 75) <= 8.
Proof.
  destruct (walk_step_bounded (tick_of 12345) 75) as (n & E & Hstep & _).
  - cbn. lia.
  - exists n. split; [exact E | exact Hstep].
Defined.

(** X6 on the track, once with the playlist and once with a failed fetch. *)
Lemma static_document_only_decides_start_time_example :
  same_up_to_start_time
    (fst (now_playing ascii_lower ascii_lower no_unicode_decimal
            (RequestEnv example_utc (Ok page_artist_x)
               (Ok (mkSoup (Some playlist_top_row))) example_local)
            initial_globals))
    (fst (now_playing ascii_lower ascii_lower no_unicode_decimal
            (RequestEnv example_utc (Ok page_artist_x)
               (Raise RequestException) example_local)
            initial_globals))
  /\ snd (now_playing ascii_lower ascii_lower no_unicode_decimal
            (RequestEnv example_utc (Ok page_artist_x)
               (Ok (mkSoup (Some playlist_top_row))) example_local)
            initial_globals)
     = snd (now_playing ascii_lower ascii_lower no_unicode_decimal
              (RequestEnv example_utc (Ok page_artist_x)
                 (Raise RequestException) example_local)
              initial_globals).
Proof.
  apply (static_document_only_decides_start_time ascii_lower ascii_lower
           no_unicode_decimal); [exact I | reflexivity].
Defined.

(** X7 on the song found at 14:05. *)
Lemma song_is_well_formed_example :
  whole_minute (Time 14 5 0 0 (Some LOCAL_TZ) 0).
Proof.
  destruct (song_is_well_formed ascii_lower ascii_lower no_unicode_decimal
              (request_of (Ok page_artist_x) (Ok (mkSoup (Some playlist_top_row))))
              (Globals false 0) (Globals true 0)
              (mkSong RADIO_NAME (lit "Artist X") (lit "Song Y")
                 (Time 14 5 0 0 (Some LOCAL_TZ) 0) example_utc))
    as (_ & _ & _ & _ & _ & Hvalid).
  - vm_compute. reflexivity.
  - apply Hvalid; cbn; lia.
Defined.

(** X9 on the track shown with spaces, tabs and newlines around it. *)
Lemma extraction_ignores_surrounding_whitespace_example :
  scrape_onair_dynamic ascii_lower
    (page_showing (two_spaces ++ lit "Artist X" ++ tab_newline)
       (tab_newline ++ lit "Song Y" ++ two_spaces))
  = scrape_onair_dynamic ascii_lower (page_showing (lit "Artist X") (lit "Song Y")).
Proof.
  apply (extraction_ignores_surrounding_whitespace ascii_lower
           two_spaces tab_newline tab_newline two_spaces); reflexivity.
Defined.

(** X12 on two spellings of the artist with the same words. *)
Lemma norm_reads_words_example :
  try_get_start_time_from_playlist ascii_lower no_unicode_decimal
    (mkSoup (Some playlist_top_row)) (lit "Artist     X ") (lit "Song Y")
  = try_get_start_time_from_playlist ascii_lower no_unicode_decimal
      (mkSoup (Some playlist_top_row)) (lit " Artist X") (lit "Song Y").
Proof.
  apply (norm_reads_words ascii_lower no_unicode_decimal ascii_fold_char
           ascii_lower_folds_by_char); reflexivity.
Defined.

(** X13 on a text with upper case and runs of spaces. *)
Lemma norm_idempotent_example :
  norm ascii_lower (norm ascii_lower (lit "  Artist   X "))
  = norm ascii_lower (lit "  Artist   X ").
Proof.
  apply (norm_idempotent ascii_lower ascii_fold_char ascii_lower_folds_by_char
           ascii_fold_char_idempotent).
Defined.

(** X14 on two delivered rounds, a disconnect and a round that never
    runs. *)
Lemma connection_delivers_until_send_fails_example :
  let '(messages, c, g1) :=
    websocket_endpoint_loop ascii_lower ascii_lower no_unicode_decimal
      rounds_sent (Globals false 75) in
  c = Streaming
  /\ List.length messages = List.length rounds_sent
  /\ websocket_endpoint ascii_lower ascii_lower no_unicode_decimal Done
       (rounds_sent ++ round_failing :: rounds_later) (Globals false 75)
     = (messages, closed_by (round_send round_failing),
        snd (generate_listeners_stats (round_tick round_failing) g1))
  /\ closed_by (round_send round_failing) <> Streaming.
Proof.
  apply (connection_delivers_until_send_fails ascii_lower ascii_lower
           no_unicode_decimal rounds_sent round_failing rounds_later
           (Globals false 75)).
  - repeat constructor.
  - discriminate.
Defined.

(** X16 on a connection open while another one ticks. *)
Lemma connection_without_requests_example :
  let '(messages, c, g') :=
    websocket_endpoint ascii_lower ascii_lower no_unicode_decimal Done
      rounds_among_ticks (Globals true 75) in
  is_radio_playing g' = true
  /\ Forall (fun stats => 10 <= listeners stats <= 180) messages.
Proof.
  apply (connection_without_requests ascii_lower ascii_lower no_unicode_decimal
           Done rounds_among_ticks (Globals true 75)).
  repeat constructor.
  - exists [tick_of 8]. reflexivity.
  - exists []. reflexivity.
  - exists [tick_of 9]. reflexivity.
Defined.

(* ================================================================== *)
(** * The revised statements on concrete inputs *)
(* ================================================================== *)



(** X5 on a driver that times out and is quit without trouble. *)
Lemma now_playing_answers_example :
  exists response,
    fst (now_playing_with_quit ascii_lower ascii_lower no_unicode_decimal quit_returns
           (request_of (Raise TimeoutException) (Raise RequestException))
           initial_globals)
    = Ok response.
Proof.
  apply (now_playing_answers ascii_lower ascii_lower no_unicode_decimal);
    reflexivity.
Defined.

(** C5 on a table whose first three rows share only a part of the artist
    or of the title with the track: the fourth row answers. *)
Lemma lookup_first_match_of_top5_example :
  try_get_start_time_from_playlist ascii_lower no_unicode_decimal
    (mkSoup (Some playlist_near_misses)) (lit "Artist X") (lit "Song Y")
  = Ok (Some (Time 14 5 0 0 (Some LOCAL_TZ) 0)).
Proof.
  destruct (lookup_first_match_of_top5 ascii_lower no_unicode_decimal
              playlist_near_misses (lit "Artist X") (lit "Song Y"))
    as (_ & Hfirst & _ & Htime).
  rewrite (Hfirst
             [row_of "09:00" "Artist" "Song Y"; row_of "09:05" "Artist X" "Song";
              row_of "09:10" "Artist Xs" "Song Y"]
             (row_of "14:05" " artist  x" "SONG Y ")
             [row_of "14:09" "Artist X" "Song Y"]).
  - exact (Htime (row_of "14:05" " artist  x" "SONG Y ") [lit "14:05"] 14 5 []
             eq_refl ltac:(lia) ltac:(lia) (or_introl eq_refl) eq_refl).
  - reflexivity.
  - intros earlier Hin (ts & a & t & _ & Ea & Et & Ha & Ht).
    simpl in Hin. destruct Hin as [<- | [<- | [<- | []]]];
      inversion Ea; inversion Et; subst;
      vm_compute in Ha, Ht; first [discriminate Ha | discriminate Ht].
  - exists [lit "14:05"], [lit " artist  x"], [lit "SONG Y "].
    repeat split; reflexivity.
Defined.

(** X10 on a table whose second row is padded and cut into strings, the
    track looked up with spaces, tabs and newlines around it. *)
Lemma lookup_ignores_surrounding_whitespace_example :
  try_get_start_time_from_playlist ascii_lower no_unicode_decimal
    (mkSoup (Some playlist_padded))
    (two_spaces ++ lit "Artist X" ++ tab_newline)
    (tab_newline ++ lit "Song Y" ++ two_spaces)
  = try_get_start_time_from_playlist ascii_lower no_unicode_decimal
      (mkSoup (Some playlist_plain)) (lit "Artist X") (lit "Song Y").
Proof.
  apply (lookup_ignores_surrounding_whitespace ascii_lower no_unicode_decimal).
  - exists two_spaces, tab_newline. repeat split; reflexivity.
  - exists tab_newline, two_spaces. repeat split; reflexivity.
  - constructor; [ | constructor; [ | constructor]].
    + split; [reflexivity | split]; exists [], []; repeat split; reflexivity.
    + split; [reflexivity | split].
      * exists two_spaces, tab_newline. repeat split; reflexivity.
      * exists tab_newline, []. repeat split; reflexivity.
Defined.

(** X11 on a table whose first matching row, the third, reads 25:00, above
    a row that reads 14:05. *)
Lemma unreadable_time_gives_none_example :
  try_get_start_time_from_playlist ascii_lower no_unicode_decimal
    (mkSoup (Some playlist_late_bad_time)) (lit "Artist X") (lit "Song Y")
  = Ok None.
Proof.
  apply (unreadable_time_gives_none ascii_lower no_unicode_decimal
           [row_without_time; row_of "09:00" "Artist Z" "Song W"]
           (row_of "25:00" "Artist X" "Song Y")
           [row_of "14:05" "Artist X" "Song Y"] _ _ [lit "25:00"]).
  - simpl. lia.
  - vm_compute. reflexivity.
  - vm_compute. reflexivity.
  - reflexivity.
  - right. exists 25, 0, []. repeat split; try lia; auto.
Defined.
